(** * MetadataStorageFromStaticFilesWebServer: a read-only metadata view over a
    static web tree

    Shallow embedding of
    [src/Disks/ObjectStorages/Web/MetadataStorageFromStaticFilesWebServer.cpp].

    - [std::string] is [string]; [operator<] on strings is [String.ltb]
      (lexicographic on the byte values).
    - [std::filesystem::path] is modelled by its pathname string (module [fs]),
      for a POSIX target.
    - [object_storage.files] (a [std::map<String, FileData>]) is an association
      list kept in strictly ascending key order.
    - Member functions run in a state-and-exception monad [M]: the state holds
      the Index, the fetcher's world, the requests sent to the fetcher, the
      trace log and the ambient query context; a thrown exception keeps the
      state reached so far.
    - The collaborators that are not among the sources (the fetcher
      [object_storage.initialize], [escapeForFileName], the error of
      [throwNotAllowed]) are variables of the section; the examples run on the
      stand-ins of module [Demo]. *)

From Stdlib Require Import String Ascii List Bool Arith Lia NArith ZArith DecimalString.
From Stdlib Require Import Sorted.
Import ListNotations.
Local Open Scope list_scope.
Local Open Scope string_scope.

(** ** std::string *)

(** [s.starts_with(prefix)], and ClickHouse's [startsWith(s, prefix)]. *)
Definition starts_with (s prefix : string) : bool := String.prefix prefix s.

(** [s.substr(pos)]: the tail from [pos]; [None] stands for the
    [std::out_of_range] raised when [pos > s.size()]. *)
Fixpoint substr (s : string) (pos : nat) : option string :=
  match pos, s with
  | O, _ => Some s
  | S _, EmptyString => None
  | S n, String _ t => substr t n
  end.

(** [s.empty()]. *)
Definition empty_string (s : string) : bool :=
  match s with EmptyString => true | _ => false end.

(** ** std::filesystem::path on a POSIX target

    A path object is its pathname, kept as given; there is no root name. A run
    of slashes separates two elements; a leading run is the root directory.
    The decomposition follows [fs.path.decompose] of the C++ standard. *)
Module fs.

Definition slash : ascii := "/"%char.
Definition dot : ascii := "."%char.

(** Splits at the last occurrence of [c]: what is before it and what is
    after it ([s.rfind(c)]). *)
Fixpoint rfind_split (c : ascii) (s : string) : option (string * string) :=
  match s with
  | EmptyString => None
  | String a t =>
      match rfind_split c t with
      | Some (before, after) => Some (String a before, after)
      | None => if Ascii.eqb a c then Some (EmptyString, t) else None
      end
  end.

(** [p.filename()]: what follows the last slash. *)
Definition filename (p : string) : string :=
  match rfind_split slash p with
  | Some (_, f) => f
  | None => p
  end.

Definition has_filename (p : string) : bool := negb (empty_string (filename p)).

(** The pathname up to and including its last slash. *)
Definition directory_part (p : string) : string :=
  match rfind_split slash p with
  | Some (d, _) => d ++ String slash EmptyString
  | None => EmptyString
  end.

(** Stem and extension of a file name: the extension starts at the last dot,
    unless the name is [.] or [..] or the dot is its first character. *)
Definition separate_filename (f : string) : string * string :=
  if String.eqb f "." || String.eqb f ".." then (f, EmptyString)
  else
    match rfind_split dot f with
    | Some (before, after) =>
        if empty_string before then (f, EmptyString)
        else (before, String dot after)
    | None => (f, EmptyString)
    end.

Definition stem (p : string) : string := fst (separate_filename (filename p)).
Definition extension (p : string) : string := snd (separate_filename (filename p)).
Definition has_extension (p : string) : bool := negb (empty_string (extension p)).

(** Drops the run of slashes a pathname ends with. *)
Fixpoint strip_trailing_slashes (s : string) : string :=
  match s with
  | EmptyString => EmptyString
  | String a t =>
      match strip_trailing_slashes t with
      | EmptyString => if Ascii.eqb a slash then EmptyString else String a EmptyString
      | r => String a r
      end
  end.

(** [p.parent_path()]: the pathname without its last element and the slashes
    before it; a pathname with no relative part (empty, or the root directory)
    is its own parent, and the parent of a name directly under the root is the
    root. *)
Definition parent_path (p : string) : string :=
  let d := directory_part p in
  match strip_trailing_slashes d with
  | EmptyString => d
  | r => r
  end.

(** [p.is_absolute()]: the pathname starts with a slash. *)
Definition is_absolute (p : string) : bool :=
  match p with
  | String a _ => Ascii.eqb a slash
  | EmptyString => false
  end.

(** [p / q]: an absolute [q] replaces [p]; otherwise [q] is appended, after a
    separator when [p] has a file name. *)
Definition append (p q : string) : string :=
  if is_absolute q then q
  else if has_filename p then p ++ String slash q
  else p ++ q.

(** The pieces between single slashes, empty ones included. *)
Fixpoint split_slash (s : string) : list string :=
  match s with
  | EmptyString => [EmptyString]
  | String a t =>
      if Ascii.eqb a slash then EmptyString :: split_slash t
      else
        match split_slash t with
        | h :: r => String a h :: r
        | [] => [String a EmptyString]
        end
  end.

(** The elements the path iterator yields after the root directory: the file
    names, then an empty element when the pathname ends with a slash. *)
Definition relative_elements (p : string) : list string :=
  let pieces := split_slash p in
  match filter (fun x => negb (empty_string x)) pieces with
  | [] => []
  | names => if empty_string (last pieces EmptyString) then (names ++ [EmptyString])%list else names
  end.

Fixpoint list_eqb (l1 l2 : list string) : bool :=
  match l1, l2 with
  | [], [] => true
  | x :: r1, y :: r2 => String.eqb x y && list_eqb r1 r2
  | _, _ => false
  end.

(** [p == q] on paths: [compare] walks both element by element, so runs of
    slashes count as one. *)
Definition equal (p q : string) : bool :=
  Bool.eqb (is_absolute p) (is_absolute q)
  && list_eqb (relative_elements p) (relative_elements q).

End fs.

Declare Scope path_scope.
Delimit Scope path_scope with path.
Infix "/" := fs.append : path_scope.

(** ** The Index: [object_storage.files]

    [WebObjectStorage.h] is not among the sources; its declarations are taken
    from their uses here and from the data model of the specification. *)

(** Modelled from the spec: [WebObjectStorage::FileType], "type ∈ {File,
    Directory}" (the declaration is in the absent header). *)
Inductive FileType := File | Directory.

Definition FileType_eqb (a b : FileType) : bool :=
  match a, b with
  | File, File | Directory, Directory => true
  | _, _ => false
  end.

(** [WebObjectStorage::FileData]: the members read here are [type] and [size]. *)
Record FileData := { type : FileType; size : N }.

(** [std::map<String, FileData>], as its entries in iteration order. *)
Definition Files := list (string * FileData).

(** The invariant of the ordered map: keys strictly ascending under
    [operator<]. *)
Fixpoint ascending (files : Files) : bool :=
  match files with
  | [] => true
  | (k, _) :: rest =>
      match rest with
      | [] => true
      | (k', _) :: _ => String.ltb k k' && ascending rest
      end
  end.

(** The first key of a map, if any, is above [k]. *)
Definition head_above (k : string) (f : Files) : bool :=
  match f with
  | [] => true
  | (k', _) :: _ => String.ltb k k'
  end.

Definition keys (files : Files) : list string := map fst files.

(** [files.find(path)], [files.contains(path)], [files.empty()]. *)
Fixpoint find (path : string) (files : Files) : option FileData :=
  match files with
  | [] => None
  | (k, d) :: rest => if String.eqb k path then Some d else find path rest
  end.

Definition contains (path : string) (files : Files) : bool :=
  match find path files with Some _ => true | None => false end.

Definition empty (files : Files) : bool :=
  match files with [] => true | _ => false end.

(** [files.emplace(path, data)]: inserts at the key's place unless the key is
    present. *)
Fixpoint emplace (path : string) (data : FileData) (files : Files) : Files :=
  match files with
  | [] => [(path, data)]
  | (k, d) :: rest =>
      if String.eqb k path then files
      else if String.ltb path k then (path, data) :: files
      else (k, d) :: emplace path data rest
  end.

(** Iterators are positions: [begin] is 0, [end] is the number of entries. *)
Definition iterator := nat.
Definition begin_ : iterator := 0.
Definition end_ (files : Files) : iterator := List.length files.
Definition prev (it : iterator) : iterator := it - 1.

(** [it->first]. *)
Definition first_at (files : Files) (it : iterator) : string :=
  nth it (keys files) EmptyString.

(** [std::lower_bound(files.begin(), files.end(), path, comp)] with
    [comp(file, path_) = file.first < path_]: the first position whose key is
    not less than [path], which is where the search ends on an ordered map. *)
Fixpoint lower_bound (files : Files) (path : string) : iterator :=
  match files with
  | [] => 0
  | (k, _) :: rest => if String.ltb k path then S (lower_bound rest path) else 0
  end.

(** ** Exceptions, log records, stored objects *)

Inductive ErrorCode := NOT_IMPLEMENTED | FILE_DOESNT_EXIST | NETWORK_ERROR.

(** [DB::Exception(code, message)], and the [std::out_of_range] of
    [std::map::at] and [std::string::substr]. *)
Inductive exception :=
| Exception (code : ErrorCode) (message : string)
| out_of_range.

Inductive Logger := DiskWeb | object_storage_log.

(** One [LOG_TRACE(logger, text)]. *)
Inductive LogRecord := LOG_TRACE (logger : Logger) (text : string).

(** Modelled from the spec: the descriptor [StoredObject::create(object_storage,
    path, size, flag)] builds ([StoredObject.h] is absent): "{ storage, key,
    size, is_remote }"; the storage is the one fixed [object_storage]. *)
Record StoredObject := { remote_path : string; bytes_size : N; is_remote : bool }.

Definition StoredObject_create (path : string) (object_size : N) (flag : bool) : StoredObject :=
  {| remote_path := path; bytes_size := object_size; is_remote := flag |}.

(** Modelled from the spec: [parentPath] of [Common/filesystemHelpers.h]
    (absent), "dirname(x)". *)
Definition parentPath (path : string) : string := fs.parent_path path.

(** [fmt]'s rendering of a [size_t]. *)
Definition format_size (n : nat) : string := NilZero.string_of_uint (Nat.to_uint n).

(** ** The monad of the member functions *)

Inductive Result (A : Type) :=
| Ok (a : A)
| Throw (e : exception).
Arguments Ok {A} a.
Arguments Throw {A} e.

Definition M (S A : Type) : Type := S -> Result A * S.

Definition ret {S A : Type} (a : A) : M S A := fun s => (Ok a, s).

Definition bind {S A B : Type} (c : M S A) (k : A -> M S B) : M S B :=
  fun s =>
    match c s with
    | (Ok a, s') => k a s'
    | (Throw e, s') => (Throw e, s')
    end.

Definition throw {S A : Type} (e : exception) : M S A := fun s => (Throw e, s).

Declare Scope monad_scope.
Delimit Scope monad_scope with monad.
Notation "x <- c1 ;; c2" := (bind c1 (fun x => c2))
  (at level 61, c1 at next level, right associativity) : monad_scope.
Notation "c1 ;; c2" := (bind c1 (fun _ => c2))
  (at level 61, right associativity) : monad_scope.
Local Open Scope monad_scope.

(** ** The state the member functions run in *)

Record State (World : Type) := {
  files : Files;                (* object_storage.files *)
  world : World;                (* the fetcher's side: the remote server, the network *)
  requests : list string;       (* the arguments of the calls to initialize *)
  trace : list LogRecord;
  query_context : bool          (* CurrentThread::isInitialized()
                                   && CurrentThread::get().getQueryContext() *)
}.
Arguments files {World} s.
Arguments world {World} s.
Arguments requests {World} s.
Arguments trace {World} s.
Arguments query_context {World} s.

(** ** Stand-ins for the collaborators, used by the examples *)
Module Demo.

Definition base_url : string := "https://h/r".

Definition directory : FileData := {| type := Directory; size := 0 |}.
Definition file (n : N) : FileData := {| type := File; size := n |}.

(** A fetcher in front of a server that holds the directory [t] with the file
    [t/a.bin] of 100 bytes and answers 404 to every other request. *)
Definition serve (uri_path : string) (w : unit) (f : Files) : option string * unit * Files :=
  if String.eqb uri_path "https://h/r/t" then
    (None, w, emplace "t/a.bin" (file 100) (emplace "t" directory f))
  else (Some "404", w, f).

(** A fetcher in front of a server that answers every request with an empty
    listing. *)
Definition vacant (uri_path : string) (w : unit) (f : Files) : option string * unit * Files :=
  (None, w, f).

Definition is_word (c : ascii) : bool :=
  let n := nat_of_ascii c in
  ((48 <=? n) && (n <=? 57) || (65 <=? n) && (n <=? 90)
   || (97 <=? n) && (n <=? 122) || (n =? 95))%nat.

Definition hex_digit (n : nat) : ascii :=
  nth n (list_ascii_of_string "0123456789ABCDEF") "0"%char.

(** A stand-in for [escapeForFileName]: every byte that is not a letter, a
    digit or an underscore becomes [%XX]. *)
Fixpoint escape (s : string) : string :=
  match s with
  | EmptyString => EmptyString
  | String c t =>
      if is_word c then String c (escape t)
      else
        String "%" (String (hex_digit (nat_of_ascii c / 16))
                      (String (hex_digit (nat_of_ascii c mod 16)) (escape t)))
  end.

(** The state of a disk whose Index is [f], with nothing requested or logged
    so far. *)
Definition disk (f : Files) (live_query : bool) : State unit :=
  {| files := f; world := tt; requests := []; trace := [];
     query_context := live_query |}.

(** The Index after the directory [t] was fetched. *)
Definition fetched_t : Files := [("t", directory); ("t/a.bin", file 100)].

End Demo.

(** ** MetadataStorageFromStaticFilesWebServer *)

Section MetadataStorage.

Set Default Proof Using "Type".

(** The fetcher's side of the world (the remote server, the network). *)
Variable World : Type.

Let State := State World.

(** [object_storage.url], the remote base URL. *)
Variable url : string.

(** [object_storage.initialize(uri_path)], the fetcher: from the world and the
    Index it gives the new world and Index, and [Some message] when it throws
    ([message] being what [getCurrentExceptionMessage(false)] then returns). *)
Variable initialize : string -> World -> Files -> option string * World * Files.

(** [escapeForFileName] of [Common/escapeForFileName.h] (absent). *)
Variable escapeForFileName : string -> string.

(** Whether the build defines [NDEBUG]. *)
Variable NDEBUG : bool.

(** What [WebObjectStorage::throwNotAllowed()] throws (it never returns; its
    body is not among the sources). *)
Variable not_allowed : exception.

Definition object_storage_files : M State Files := fun s => (Ok (files s), s).

(** [try { object_storage.initialize(uri_path); } catch (...)]: runs the
    fetcher and hands the caught message, if any, to the handler. *)
Definition try_initialize (uri_path : string) : M State (option string) :=
  fun s =>
    let '(failure, w, f) := initialize uri_path (world s) (files s) in
    (Ok failure,
     {| files := f; world := w; requests := (requests s ++ [uri_path])%list;
        trace := trace s; query_context := query_context s |}).

Definition has_query_context : M State bool := fun s => (Ok (query_context s), s).

Definition log_trace (logger : Logger) (text : string) : M State unit :=
  fun s =>
    (Ok tt,
     {| files := files s; world := world s; requests := requests s;
        trace := (trace s ++ [LOG_TRACE logger text])%list;
        query_context := query_context s |}).

Definition throwNotAllowed {A : Type} : M State A := throw not_allowed.

(** [files.at(path)]. *)
Definition files_at (path : string) : M State FileData :=
  f <- object_storage_files ;;
  match find path f with
  | Some data => ret data
  | None => throw out_of_range
  end.

(** [throw_on_error] is a [std::optional<bool>]; the calls that leave it out
    pass [None] (the default argument is in the absent header). *)
Definition initializeIfNeeded (path : string) (throw_on_error : option bool) : M State bool :=
  f <- object_storage_files ;;
  if negb (contains path f) then
    failure <- try_initialize (url / path)%path ;;
    match failure with
    | Some message =>
        can_throw <- match throw_on_error with
                     | Some b => ret b
                     | None => has_query_context
                     end ;;
        if can_throw : bool then
          throw (Exception NETWORK_ERROR ("Cannot load disk metadata. Error: " ++ message))
        else
          log_trace DiskWeb ("Cannot load disk metadata. Error: " ++ message) ;;
          ret false
    | None => ret true
    end
  else ret true.

Definition exists_ (path : string) : M State bool :=
  let fs_path := if fs.has_extension path then fs.parent_path path else path in
  _ <- initializeIfNeeded fs_path (Some false) ;;
  f <- object_storage_files ;;
  if empty f then ret false
  else if contains path f then ret true
  else
    let it := lower_bound f path in
    if Nat.eqb it (end_ f) then ret false
    else if starts_with (first_at f it) path
            || (negb (Nat.eqb it begin_) && starts_with (first_at f (prev it)) path)
    then ret true
    else ret false.

Definition assertExists (path : string) : M State unit :=
  _ <- initializeIfNeeded path None ;;
  found <- exists_ path ;;
  if negb found then
    if NDEBUG then
      throw (Exception FILE_DOESNT_EXIST ("There is no path " ++ path))
    else
      f <- object_storage_files ;;
      let all_files :=
        fold_left
          (fun (all_files : string) (entry : string * FileData) =>
             (if negb (empty_string all_files) then all_files ++ ", " else all_files)
             ++ fst entry)
          f EmptyString in
      throw (Exception FILE_DOESNT_EXIST
               ("There is no path " ++ path ++ " (available files: " ++ all_files ++ ")"))
  else ret tt.

Definition isFile (path : string) : M State bool :=
  assertExists path ;;
  data <- files_at path ;;
  ret (FileType_eqb (type data) File).

Definition isDirectory (path : string) : M State bool :=
  assertExists path ;;
  data <- files_at path ;;
  ret (FileType_eqb (type data) Directory).

Definition getFileSize (path : string) : M State N :=
  assertExists path ;;
  data <- files_at path ;;
  ret (size data).

Definition getStorageObjects (path : string) : M State (list StoredObject) :=
  assertExists path ;;
  let fs_path := (url / path)%path in
  let remote_path :=
    (fs.parent_path fs_path
     / (escapeForFileName (fs.stem fs_path) ++ fs.extension fs_path))%path in
  remote_path <- match substr remote_path (String.length url) with
                 | Some r => ret r
                 | None => throw out_of_range
                 end ;;
  data <- files_at path ;;
  ret [StoredObject_create remote_path (size data) true].

Definition listDirectory (path : string) : M State (list string) :=
  f <- object_storage_files ;;
  ret (fold_left
         (fun (result : list string) (entry : string * FileData) =>
            if starts_with (fst entry) path then (result ++ [fst entry])%list else result)
         f []).

(** The returned [StaticDirectoryIterator] is given by the vector it owns. *)
Definition iterateDirectory (path : string) : M State (list string) :=
  initialized <- initializeIfNeeded path None ;;
  if negb initialized then ret []
  else
    assertExists path ;;
    f <- object_storage_files ;;
    let dir_file_paths :=
      fold_left
        (fun (dir_file_paths : list string) (entry : string * FileData) =>
           if fs.equal (parentPath (fst entry) / "")%path (path / "")%path
           then (dir_file_paths ++ [fst entry])%list else dir_file_paths)
        f [] in
    log_trace object_storage_log
      ("Iterate directory " ++ path ++ " with "
       ++ format_size (List.length dir_file_paths) ++ " files") ;;
    ret dir_file_paths.

Definition readFileToString (path : string) : M State string := throwNotAllowed.

Definition getHardlinkCount (path : string) : M State N := ret 1%N.

(** [time_t getLastChanged(path)] returns a value-initialized [time_t]. *)
Definition getLastChanged (path : string) : M State Z := ret 0%Z.

Definition getSerializedMetadata (file_paths : list string) : M State (list (string * string)) :=
  throw (Exception NOT_IMPLEMENTED
           "getSerializedMetadata is not implemented for MetadataStorageFromStaticFilesWebServer").

(** *** MetadataStorageFromStaticFilesWebServerTransaction

    The transaction holds a reference to the storage and nothing else. *)

Definition writeStringToFile (path data : string) : M State unit := throwNotAllowed.
Definition setLastModified (path : string) (timestamp : Z) : M State unit := throwNotAllowed.
Definition unlinkFile (path : string) : M State unit := throwNotAllowed.
Definition removeRecursive (path : string) : M State unit := throwNotAllowed.
Definition removeDirectory (path : string) : M State unit := throwNotAllowed.
Definition moveFile (path_from path_to : string) : M State unit := throwNotAllowed.
Definition moveDirectory (path_from path_to : string) : M State unit := throwNotAllowed.
Definition replaceFile (path_from path_to : string) : M State unit := throwNotAllowed.
Definition setReadOnly (path : string) : M State unit := throwNotAllowed.
Definition createHardLink (path_from path_to : string) : M State unit := throwNotAllowed.
Definition addBlobToMetadata (path blob_name : string) (size_in_bytes : N) : M State unit :=
  throwNotAllowed.
Definition unlinkMetadata (path : string) : M State unit := throwNotAllowed.

Definition createDirectory (path : string) : M State unit := ret tt.
Definition createDirectoryRecursive (path : string) : M State unit := ret tt.
Definition createEmptyMetadataFile (path : string) : M State unit := ret tt.
Definition createMetadataFile (path blob_name : string) (size_in_bytes : N) : M State unit :=
  ret tt.
Definition commit : M State unit := ret tt.

Definition chmod (path : string) (mode : N) : M State unit :=
  throw (Exception NOT_IMPLEMENTED
           "chmod is not implemented for MetadataStorageFromStaticFilesWebServer").

(** A call of one operation of the transaction interface. *)
Inductive TransactionCall :=
| call_writeStringToFile (path data : string)
| call_setLastModified (path : string) (timestamp : Z)
| call_unlinkFile (path : string)
| call_removeRecursive (path : string)
| call_removeDirectory (path : string)
| call_moveFile (path_from path_to : string)
| call_moveDirectory (path_from path_to : string)
| call_replaceFile (path_from path_to : string)
| call_setReadOnly (path : string)
| call_createHardLink (path_from path_to : string)
| call_addBlobToMetadata (path blob_name : string) (size_in_bytes : N)
| call_unlinkMetadata (path : string)
| call_createDirectory (path : string)
| call_createDirectoryRecursive (path : string)
| call_createEmptyMetadataFile (path : string)
| call_createMetadataFile (path blob_name : string) (size_in_bytes : N)
| call_commit
| call_chmod (path : string) (mode : N).

Definition perform (c : TransactionCall) : M State unit :=
  match c with
  | call_writeStringToFile p d => writeStringToFile p d
  | call_setLastModified p t => setLastModified p t
  | call_unlinkFile p => unlinkFile p
  | call_removeRecursive p => removeRecursive p
  | call_removeDirectory p => removeDirectory p
  | call_moveFile a b => moveFile a b
  | call_moveDirectory a b => moveDirectory a b
  | call_replaceFile a b => replaceFile a b
  | call_setReadOnly p => setReadOnly p
  | call_createHardLink a b => createHardLink a b
  | call_addBlobToMetadata p b n => addBlobToMetadata p b n
  | call_unlinkMetadata p => unlinkMetadata p
  | call_createDirectory p => createDirectory p
  | call_createDirectoryRecursive p => createDirectoryRecursive p
  | call_createEmptyMetadataFile p => createEmptyMetadataFile p
  | call_createMetadataFile p b n => createMetadataFile p b n
  | call_commit => commit
  | call_chmod p m => chmod p m
  end.


(** *** The contract of the Index and the statements of the specification *)

(** The contract of the fetcher on the Index: what it leaves is an ordered
    map again, and it never deletes or changes an entry. *)
Definition fetcher_contract : Prop :=
  forall u w f,
    ascending f = true ->
    ascending (snd (initialize u w f)) = true
    /\ forall k d, find k f = Some d -> find k (snd (initialize u w f)) = Some d.

(** What the caller's flag and the ambient context decide on a failed fetch. *)
Definition escalates (throw_on_error : option bool) (s : State) : bool :=
  match throw_on_error with
  | Some b => b
  | None => query_context s
  end.

(** The path [exists] seeds the lazy init with. *)
Definition probe (p : string) : string :=
  if fs.has_extension p then fs.parent_path p else p.

(** The state after a call of the fetcher on [uri_path]. *)
Definition fetched (uri_path : string) (s : State) : State :=
  {| files := snd (initialize uri_path (world s) (files s));
     world := snd (fst (initialize uri_path (world s) (files s)));
     requests := (requests s ++ [uri_path])%list;
     trace := trace s;
     query_context := query_context s |}.

(** The state with one more record in the trace log. *)
Definition logged (r : LogRecord) (s : State) : State :=
  {| files := files s; world := world s; requests := requests s;
     trace := (trace s ++ [r])%list; query_context := query_context s |}.

(** What [exists] answers from the Index [f] its lazy init leaves. *)
Definition answer (f : Files) (path : string) : bool :=
  if empty f then false
  else if contains path f then true
  else
    let it := lower_bound f path in
    if Nat.eqb it (end_ f) then false
    else
      starts_with (first_at f it) path
      || (negb (Nat.eqb it begin_) && starts_with (first_at f (prev it)) path).

(** The Index [f'] holds every entry of [f]. *)
Definition extends (f f' : Files) : Prop :=
  forall k d, find k f = Some d -> find k f' = Some d.

(** The existence algorithm as the specification words it (section 4.2):
    probe path, lazy init without escalation, empty Index, direct hit, then
    the entry at the lower bound or its predecessor. *)
Definition exists_spec (p : string) : M State bool :=
  let q := if fs.has_extension p then fs.parent_path p else p in
  _ <- initializeIfNeeded q (Some false) ;;
  Index <- object_storage_files ;;
  if empty Index then ret false
  else if contains p Index then ret true
  else
    let it := lower_bound Index p in
    ret ((Nat.ltb it (List.length Index) && starts_with (first_at Index it) p)
         || (Nat.ltb 0 it && starts_with (first_at Index (it - 1)) p)).

(** "dirname(x)/ == p/": the parent path of [x] equals [p] up to a trailing
    slash. *)
Definition in_directory (p x : string) : bool :=
  fs.equal (fs.parent_path x / "")%path (p / "")%path.

(** Exactly one of [isFile(p)], [isDirectory(p)] returns true and the other
    returns false. *)
Definition classified_exclusively (p : string) (s : State) : Prop :=
  (fst (isFile p s) = Ok true /\ fst (isDirectory p s) = Ok false)
  \/ (fst (isFile p s) = Ok false /\ fst (isDirectory p s) = Ok true).

(** The remote path [getStorageObjects] builds before it strips the base URL,
    and the one the specification words (section 4.5, step 2). *)
Definition remote_of (p : string) : string :=
  let fs_path := (url / p)%path in
  (fs.parent_path fs_path / (escapeForFileName (fs.stem fs_path) ++ fs.extension fs_path))%path.

Definition remote_spec (p : string) : string :=
  ((url / fs.parent_path p) / (escapeForFileName (fs.stem p) ++ fs.extension p))%path.

(** A base URL that does not end in two or more slashes after a name: it has
    a file name, or is made of slashes only, or ends in one slash. *)
Definition plain_base (u : string) : bool :=
  match fs.strip_trailing_slashes u with
  | EmptyString => true
  | r => String.eqb u r || String.eqb u (r ++ "/")
  end.

(** What an operation of the view may do to the state, with at most [n] calls
    of the fetcher: the query context stays; requests and trace records are
    only appended; and with no request sent the Index and the world are the
    ones before. *)
Definition evolves_within (n : nat) (s s' : State) : Prop :=
  query_context s' = query_context s
  /\ (exists sent,
        requests s' = (requests s ++ sent)%list
        /\ List.length sent <= n
        /\ (sent = [] -> files s' = files s /\ world s' = world s))
  /\ exists records, trace s' = (trace s ++ records)%list.

(** From an ordered Index the operation leaves an ordered Index that holds
    every entry of the one before. *)
Definition index_kept (s s' : State) : Prop :=
  ascending (files s) = true ->
  ascending (files s') = true /\ extends (files s) (files s').

(** Paths in strictly ascending order. *)
Definition paths_ascending (l : list string) : Prop :=
  StronglySorted (fun a b => String.ltb a b = true) l.

(** ** Facts on [std::string]: order and prefixes *)

Lemma ascii_compare_refl (a : ascii) : Ascii.compare a a = Eq.
Proof. unfold Ascii.compare. apply N.compare_refl. Qed.

Lemma ascii_compare_lt_trans (a b c : ascii) :
  Ascii.compare a b = Lt -> Ascii.compare b c = Lt -> Ascii.compare a c = Lt.
Proof.
  unfold Ascii.compare. rewrite !N.compare_lt_iff. apply N.lt_trans.
Qed.

Lemma string_compare_refl (s : string) : String.compare s s = Eq.
Proof.
  induction s as [|a s IH]; simpl; [reflexivity|].
  now rewrite ascii_compare_refl.
Qed.

Lemma ltb_irrefl (s : string) : String.ltb s s = false.
Proof. unfold String.ltb. now rewrite string_compare_refl. Qed.

Lemma ltb_trans (s1 s2 s3 : string) :
  String.ltb s1 s2 = true -> String.ltb s2 s3 = true -> String.ltb s1 s3 = true.
Proof.
  unfold String.ltb. revert s2 s3.
  induction s1 as [|a s1 IH]; intros [|b s2] [|c s3]; simpl; try congruence.
  destruct (Ascii.compare a b) eqn:Hab; try congruence;
    destruct (Ascii.compare b c) eqn:Hbc; try congruence; intros H12 H23.
  - apply Ascii.compare_eq_iff in Hab, Hbc. subst. rewrite ascii_compare_refl.
    now apply IH with s2.
  - apply Ascii.compare_eq_iff in Hab. subst. now rewrite Hbc.
  - apply Ascii.compare_eq_iff in Hbc. subst. now rewrite Hab.
  - now rewrite (ascii_compare_lt_trans _ _ _ Hab Hbc).
Qed.

Lemma ltb_asym (s1 s2 : string) : String.ltb s1 s2 = true -> String.ltb s2 s1 = false.
Proof.
  intros H. destruct (String.ltb s2 s1) eqn:H'; [|reflexivity].
  pose proof (ltb_trans _ _ _ H H') as Hc. now rewrite ltb_irrefl in Hc.
Qed.

Lemma starts_with_cons (a b : ascii) (s p : string) :
  starts_with (String a s) (String b p) = true <-> a = b /\ starts_with s p = true.
Proof.
  unfold starts_with. simpl. destruct (ascii_dec b a) as [->|Hne].
  - split; [now split|now intros [_ H]].
  - split; [discriminate|]. intros [-> _]. congruence.
Qed.

Lemma starts_with_refl (s : string) : starts_with s s = true.
Proof.
  induction s as [|a s IH]; [reflexivity|]. now apply starts_with_cons.
Qed.

Lemma starts_with_empty (s : string) : starts_with s EmptyString = true.
Proof. now destruct s. Qed.

(** A string that starts with [p ++ q] starts with [p]. *)
Lemma starts_with_app (s p q : string) :
  starts_with s (p ++ q) = true -> starts_with s p = true.
Proof.
  revert s. induction p as [|b p IH]; intros s H; [apply starts_with_empty|].
  destruct s as [|a s]; [discriminate|].
  simpl in H. apply starts_with_cons in H as [-> H]. apply starts_with_cons. auto.
Qed.

(** A string is never below one of its prefixes. *)
Lemma starts_with_not_ltb (k p : string) :
  starts_with k p = true -> String.ltb k p = false.
Proof.
  unfold String.ltb. revert k. induction p as [|b p IH]; intros [|a k] H; simpl;
    try reflexivity; try discriminate.
  apply starts_with_cons in H as [-> H]. rewrite ascii_compare_refl. now apply IH.
Qed.

(** Between a prefix [p] and a string that starts with [p], in the order of
    the keys, every string starts with [p]. *)
Lemma starts_with_between (p m k : string) :
  starts_with k p = true -> String.ltb m p = false -> String.ltb k m = false ->
  starts_with m p = true.
Proof.
  unfold String.ltb. revert m k.
  induction p as [|b p IH]; intros m k Hk Hmp Hkm; [apply starts_with_empty|].
  destruct k as [|a k]; [discriminate|].
  apply starts_with_cons in Hk as [-> Hk].
  destruct m as [|c m]; simpl in Hmp; [discriminate|].
  simpl in Hkm. rewrite (Ascii.compare_antisym b c) in Hkm.
  destruct (Ascii.compare c b) eqn:Hcb; simpl in Hkm; try discriminate.
  apply Ascii.compare_eq_iff in Hcb. subst c.
  apply starts_with_cons. split; [reflexivity|]. now apply IH with k.
Qed.

(** ** Facts on pathnames *)

Lemma append_assoc (a b c : string) : (a ++ b) ++ c = a ++ (b ++ c).
Proof. induction a as [|h a IH]; simpl; [reflexivity|now rewrite IH]. Qed.

Lemma append_empty_r (a : string) : a ++ "" = a.
Proof. induction a as [|h a IH]; simpl; [reflexivity|now rewrite IH]. Qed.

Lemma substr_app (a b : string) : substr (a ++ b) (String.length a) = Some b.
Proof. induction a as [|h a IH]; simpl; [now destruct b|exact IH]. Qed.

(** [substr] drops the first [n] characters of a string that has them, and
    fails on a shorter one. *)
Lemma substr_some (s : string) (n : nat) :
  n <= String.length s ->
  exists before after,
    s = before ++ after /\ String.length before = n /\ substr s n = Some after.
Proof.
  revert s. induction n as [|n IH]; intros s Hn.
  - exists EmptyString, s. now destruct s.
  - destruct s as [|h s]; simpl in Hn; [lia|].
    destruct (IH s ltac:(lia)) as (b & a & -> & <- & Hs).
    exists (String h b), a. simpl. auto.
Qed.

Lemma substr_none (s : string) (n : nat) :
  String.length s < n -> substr s n = None.
Proof.
  revert s. induction n as [|n IH]; intros s Hn; [lia|].
  destruct s as [|h s]; [reflexivity|]. simpl in *. apply IH. lia.
Qed.

Lemma rfind_split_app (c : ascii) (a b : string) :
  fs.rfind_split c (a ++ b)
  = match fs.rfind_split c b with
    | Some (x, y) => Some (a ++ x, y)
    | None =>
        match fs.rfind_split c a with
        | Some (x, y) => Some (x, y ++ b)
        | None => None
        end
    end.
Proof.
  induction a as [|h a IH]; simpl.
  - now destruct (fs.rfind_split c b) as [[x y]|].
  - rewrite IH. destruct (fs.rfind_split c b) as [[x y]|]; [reflexivity|].
    destruct (fs.rfind_split c a) as [[x y]|]; [reflexivity|].
    now destruct (Ascii.eqb h c).
Qed.

Lemma rfind_split_some (c : ascii) (s x y : string) :
  fs.rfind_split c s = Some (x, y) -> s = x ++ String c y.
Proof.
  revert x y. induction s as [|h s IH]; simpl; intros x y; [discriminate|].
  destruct (fs.rfind_split c s) as [[x' y']|].
  - intros [= <- <-]. simpl. now rewrite (IH x' y' eq_refl) at 1.
  - destruct (Ascii.eqb_spec h c) as [->|]; [|discriminate].
    now intros [= <- <-].
Qed.

Lemma has_filename_cons (h : ascii) (t : string) :
  fs.has_filename (String h t)
  = if empty_string t then negb (Ascii.eqb h fs.slash) else fs.has_filename t.
Proof.
  unfold fs.has_filename, fs.filename. simpl.
  destruct t as [|h' t']; [simpl; now destruct (Ascii.eqb h fs.slash)|].
  destruct (fs.rfind_split fs.slash (String h' t')) as [[x y]|]; [reflexivity|].
  now destruct (Ascii.eqb h fs.slash).
Qed.

(** A pathname with no file name is its own directory part. *)
Lemma directory_part_no_filename (u : string) :
  fs.has_filename u = false -> fs.directory_part u = u.
Proof.
  unfold fs.has_filename, fs.filename, fs.directory_part.
  destruct (fs.rfind_split fs.slash u) as [[x y]|] eqn:Hr.
  - destruct y; [|discriminate]. intros _. now rewrite (rfind_split_some _ _ _ _ Hr).
  - now destruct u.
Qed.

Lemma strip_app (a b : string) :
  fs.strip_trailing_slashes (a ++ b)
  = match fs.strip_trailing_slashes b with
    | EmptyString => fs.strip_trailing_slashes a
    | r => a ++ r
    end.
Proof.
  induction a as [|h a IH]; simpl.
  - now destruct (fs.strip_trailing_slashes b).
  - rewrite IH. destruct (fs.strip_trailing_slashes b) as [|c r]; [reflexivity|].
    now destruct a.
Qed.

(** What is left of a pathname without its trailing slashes, if anything, has
    a file name. *)
Lemma strip_has_filename (s : string) :
  fs.strip_trailing_slashes s <> EmptyString ->
  fs.has_filename (fs.strip_trailing_slashes s) = true.
Proof.
  induction s as [|h s IH]; simpl; [congruence|].
  destruct (fs.strip_trailing_slashes s) as [|c r] eqn:Hs.
  - destruct (Ascii.eqb h fs.slash) eqn:Hh; [congruence|]. intros _.
    rewrite has_filename_cons. simpl. now rewrite Hh.
  - intros _. rewrite has_filename_cons. simpl. apply IH. discriminate.
Qed.

Lemma strip_of_filename (s : string) :
  fs.has_filename s = true -> fs.strip_trailing_slashes s = s.
Proof.
  induction s as [|h s IH]; [reflexivity|].
  rewrite has_filename_cons. simpl. destruct s as [|h' s'].
  - simpl. now destruct (Ascii.eqb h fs.slash).
  - intros H. rewrite (IH H). reflexivity.
Qed.

(** Stripping a relative, non-empty pathname leaves a relative, non-empty one. *)
Lemma strip_relative (s : string) :
  fs.is_absolute s = false -> s <> EmptyString ->
  fs.strip_trailing_slashes s <> EmptyString
  /\ fs.is_absolute (fs.strip_trailing_slashes s) = false.
Proof.
  destruct s as [|h s]; [congruence|]. simpl. intros Hh _.
  destruct (fs.strip_trailing_slashes s); rewrite ?Hh; simpl; rewrite ?Hh;
    split; congruence.
Qed.

Lemma is_absolute_app (a b : string) :
  a <> EmptyString -> fs.is_absolute (a ++ b) = fs.is_absolute a.
Proof. destruct a; [congruence|reflexivity]. Qed.

(** [p / q] for a relative [q] extends the pathname of [p]. *)
Lemma append_relative (a q : string) :
  fs.is_absolute q = false ->
  (a / q)%path = (if fs.has_filename a then a ++ "/" else a) ++ q.
Proof.
  unfold fs.append. intros ->. destruct (fs.has_filename a); [|reflexivity].
  now rewrite append_assoc.
Qed.

(** The separator [operator/] puts after the base URL leaves no file name. *)
Lemma base_no_filename (u : string) :
  fs.has_filename (if fs.has_filename u then u ++ "/" else u) = false.
Proof.
  destruct (fs.has_filename u) eqn:Hu; [|exact Hu].
  unfold fs.has_filename, fs.filename. rewrite rfind_split_app. reflexivity.
Qed.

(** The file name of [u / p] is the file name of [p]. *)
Lemma filename_append (u p : string) :
  fs.filename (u / p)%path = fs.filename p.
Proof.
  destruct (fs.is_absolute p) eqn:Hp; [unfold fs.append; now rewrite Hp|].
  rewrite (append_relative _ _ Hp).
  pose proof (base_no_filename u) as Hb.
  set (b := if fs.has_filename u then u ++ "/" else u) in *.
  unfold fs.has_filename, fs.filename in *. rewrite rfind_split_app.
  destruct (fs.rfind_split fs.slash p) as [[x y]|]; [reflexivity|].
  destruct (fs.rfind_split fs.slash b) as [[x y]|].
  - destruct y; [reflexivity|discriminate].
  - destruct b; [reflexivity|discriminate].
Qed.

Lemma rfind_split_relative (p x y : string) :
  fs.is_absolute p = false -> fs.rfind_split fs.slash p = Some (x, y) ->
  let d := x ++ "/" in
  fs.directory_part p = d
  /\ fs.strip_trailing_slashes d <> EmptyString
  /\ fs.is_absolute (fs.strip_trailing_slashes d) = false.
Proof.
  intros Hp Hr d. split; [unfold fs.directory_part; now rewrite Hr|].
  assert (Hx : x <> EmptyString).
  { intros ->. apply rfind_split_some in Hr. subst p. discriminate. }
  apply strip_relative.
  - unfold d. rewrite (is_absolute_app _ _ Hx).
    apply rfind_split_some in Hr. subst p. now rewrite (is_absolute_app _ _ Hx) in Hp.
  - unfold d. now destruct x.
Qed.

(** The parent of a relative pathname is relative. *)
Lemma parent_path_relative (p : string) :
  fs.is_absolute p = false -> fs.is_absolute (fs.parent_path p) = false.
Proof.
  intros Hp. unfold fs.parent_path.
  destruct (fs.rfind_split fs.slash p) as [[x y]|] eqn:Hr.
  - destruct (rfind_split_relative p x y Hp Hr) as (-> & Hne & Hrel).
    destruct (fs.strip_trailing_slashes (x ++ "/")); [congruence|exact Hrel].
  - unfold fs.directory_part. rewrite Hr. reflexivity.
Qed.

(** For a relative [p] and a plain base [u], taking the parent of [u / p] and
    appending a relative name gives what [u / dirname(p)] followed by the name
    gives. *)
Lemma parent_path_append (u p name : string) :
  fs.is_absolute p = false -> plain_base u = true -> fs.is_absolute name = false ->
  (fs.parent_path (u / p) / name)%path = ((u / fs.parent_path p) / name)%path.
Proof.
  intros Hp Hu Hn.
  rewrite (append_relative u p Hp),
    (append_relative u _ (parent_path_relative p Hp)).
  pose proof (base_no_filename u) as Hb.
  set (b := if fs.has_filename u then u ++ "/" else u) in *.
  unfold fs.parent_path at 1 2.
  destruct (fs.rfind_split fs.slash p) as [[x y]|] eqn:Hr.
  - destruct (rfind_split_relative p x y Hp Hr) as (Hd & Hne & _). rewrite Hd.
    assert (Hbd : fs.directory_part (b ++ p) = b ++ (x ++ "/")).
    { unfold fs.directory_part. rewrite rfind_split_app, Hr. apply append_assoc. }
    rewrite Hbd, strip_app.
    destruct (fs.strip_trailing_slashes (x ++ "/")) as [|c r]; [congruence|].
    now destruct b.
  - assert (Hd : fs.directory_part p = EmptyString)
      by (unfold fs.directory_part; now rewrite Hr).
    rewrite Hd. simpl. rewrite append_empty_r.
    assert (Hbd : fs.directory_part (b ++ p) = b).
    { rewrite <- (directory_part_no_filename b Hb) at 2.
      unfold fs.directory_part. rewrite rfind_split_app, Hr.
      now destruct (fs.rfind_split fs.slash b) as [[x y]|]. }
    rewrite Hbd.
    destruct (fs.strip_trailing_slashes b) as [|c r] eqn:Hs; [reflexivity|].
    assert (Hbr : b = String c r ++ "/").
    { unfold b in *. destruct (fs.has_filename u) eqn:Hf.
      - rewrite strip_app in Hs. simpl in Hs.
        rewrite (strip_of_filename u Hf) in Hs. now rewrite Hs.
      - unfold plain_base in Hu. rewrite Hs in Hu.
        apply orb_true_iff in Hu as [Hu|Hu]; apply String.eqb_eq in Hu; [|exact Hu].
        assert (Ht : fs.has_filename (fs.strip_trailing_slashes u) = true)
          by (apply strip_has_filename; rewrite Hs; discriminate).
        rewrite Hs, <- Hu, Hf in Ht. discriminate. }
    assert (Hfr : fs.has_filename (String c r) = true).
    { rewrite <- Hs. apply strip_has_filename. rewrite Hs. discriminate. }
    rewrite (append_relative (String c r) name Hn), Hfr, <- Hbr.
    rewrite (append_relative b name Hn), Hb. reflexivity.
Qed.

Lemma extension_relative (p : string) : fs.is_absolute (fs.extension p) = false.
Proof.
  unfold fs.extension, fs.separate_filename.
  destruct (_ || _); [reflexivity|].
  destruct (fs.rfind_split fs.dot (fs.filename p)) as [[x y]|]; [|reflexivity].
  destruct (empty_string x); reflexivity.
Qed.

Lemma is_absolute_append (a b : string) :
  fs.is_absolute a = false -> fs.is_absolute b = false -> fs.is_absolute (a ++ b) = false.
Proof. destruct a; simpl; auto. Qed.

Lemma append_extends (a q : string) :
  fs.is_absolute q = false -> exists k, (a / q)%path = a ++ k.
Proof.
  intros Hq. rewrite (append_relative a q Hq).
  destruct (fs.has_filename a); [|now exists q].
  exists ("/" ++ q). apply append_assoc.
Qed.

(** ** Facts on the ordered map *)

Lemma ascending_tail (e : string * FileData) (rest : Files) :
  ascending (e :: rest) = true -> ascending rest = true.
Proof.
  destruct e as [k d]. destruct rest as [|[k' d'] rest]; [reflexivity|].
  simpl. intros H. now apply andb_true_iff in H.
Qed.

(** In an ordered map the first key is below every other key. *)
Lemma ascending_head_below (k : string) (d : FileData) (rest : Files) :
  ascending ((k, d) :: rest) = true ->
  forall k', In k' (keys rest) -> String.ltb k k' = true.
Proof.
  revert k d. induction rest as [|[k1 d1] rest IH]; intros k d H k' Hin; [contradiction|].
  simpl in H. apply andb_true_iff in H as [Hlt Hrest].
  destruct Hin as [<-|Hin]; [exact Hlt|].
  apply ltb_trans with k1; [exact Hlt|]. now apply (IH k1 d1).
Qed.

Lemma find_some_in_keys (k : string) (f : Files) (d : FileData) :
  find k f = Some d -> In k (keys f).
Proof.
  induction f as [|[k0 d0] f IH]; simpl; [discriminate|].
  destruct (String.eqb_spec k0 k) as [->|Hne]; [now left|]. intros H. right. auto.
Qed.

Lemma in_keys_find (k : string) (f : Files) :
  In k (keys f) -> exists d, find k f = Some d.
Proof.
  induction f as [|[k0 d0] f IH]; simpl; [contradiction|].
  destruct (String.eqb_spec k0 k) as [->|Hne]; [now exists d0|].
  intros [H|H]; [contradiction|]. auto.
Qed.

Lemma contains_in_keys (k : string) (f : Files) :
  contains k f = true <-> In k (keys f).
Proof.
  unfold contains. split.
  - destruct (find k f) eqn:H; [|discriminate]. intros _. now apply find_some_in_keys with f0.
  - intros H. apply in_keys_find in H as [d ->]. reflexivity.
Qed.

Lemma lower_bound_le (f : Files) (p : string) : lower_bound f p <= List.length f.
Proof.
  induction f as [|[k d] f IH]; simpl; [lia|]. destruct (String.ltb k p); lia.
Qed.

(** Every key before the lower bound of [p] is below [p]. *)
Lemma lower_bound_below (f : Files) (p : string) (i : nat) :
  i < lower_bound f p -> String.ltb (first_at f i) p = true.
Proof.
  revert i. induction f as [|[k d] f IH]; simpl; intros i Hi; [lia|].
  destruct (String.ltb k p) eqn:Hk; [|lia].
  destruct i as [|i]; [exact Hk|]. apply IH. lia.
Qed.

(** In an ordered map that holds a key starting with [p], the lower bound of
    [p] is an entry and its key starts with [p]. *)
Lemma lower_bound_hits (f : Files) (p k : string) :
  ascending f = true -> In k (keys f) -> starts_with k p = true ->
  lower_bound f p < List.length f
  /\ starts_with (first_at f (lower_bound f p)) p = true.
Proof.
  intros Hasc Hin Hk. induction f as [|[k0 d0] f IH]; [contradiction|].
  simpl. destruct (String.ltb k0 p) eqn:H0.
  - destruct Hin as [Heq|Hin].
    + simpl in Heq. subst k0. rewrite (starts_with_not_ltb _ _ Hk) in H0. discriminate.
    + destruct (IH (ascending_tail _ _ Hasc) Hin) as [Hlt Hs]. split; [lia|exact Hs].
  - split; [lia|]. unfold first_at. simpl.
    apply starts_with_between with k; [exact Hk|exact H0|].
    destruct Hin as [Heq|Hin].
    + simpl in Heq. subst k0. apply ltb_irrefl.
    + apply ltb_asym. now apply (ascending_head_below k0 d0 f).
Qed.

(** [emplace] keeps the map ordered and its entries in place. *)

Lemma ltb_total (a b : string) : String.ltb a b = false -> a <> b -> String.ltb b a = true.
Proof.
  unfold String.ltb. rewrite (String.compare_antisym b a).
  destruct (String.compare a b) eqn:Hc; simpl; try congruence.
  apply String.compare_eq_iff in Hc. congruence.
Qed.

Lemma ascending_cons (k : string) (d : FileData) (f : Files) :
  ascending ((k, d) :: f) = head_above k f && ascending f.
Proof. destruct f as [|[k' d'] f]; reflexivity. Qed.

Lemma head_above_emplace (k p : string) (x : FileData) (f : Files) :
  head_above k f = true -> String.ltb k p = true -> head_above k (emplace p x f) = true.
Proof.
  destruct f as [|[k0 d0] f]; simpl; [auto|]. intros Hk Hp.
  destruct (String.eqb k0 p); [exact Hk|]. now destruct (String.ltb p k0).
Qed.

Lemma emplace_ascending (p : string) (x : FileData) (f : Files) :
  ascending f = true -> ascending (emplace p x f) = true.
Proof.
  induction f as [|[k0 d0] f IH]; [reflexivity|]. intros Hasc.
  cbn [emplace]. destruct (String.eqb_spec k0 p) as [->|Hne]; [exact Hasc|].
  destruct (String.ltb p k0) eqn:Hp.
  - rewrite ascending_cons. cbn [head_above]. now rewrite Hp.
  - rewrite ascending_cons in Hasc |- *. apply andb_true_iff in Hasc as [Hh Ha].
    rewrite (IH Ha), andb_true_r. apply head_above_emplace; [exact Hh|].
    apply ltb_total; congruence.
Qed.

Lemma emplace_keeps (p : string) (x : FileData) (f : Files) (k : string) (d : FileData) :
  ascending f = true -> find k f = Some d -> find k (emplace p x f) = Some d.
Proof.
  induction f as [|[k0 d0] f IH]; [discriminate|]. intros Hasc Hk.
  cbn [emplace]. destruct (String.eqb_spec k0 p) as [->|Hne]; [exact Hk|].
  destruct (String.ltb p k0) eqn:Hp.
  - cbn [find]. destruct (String.eqb_spec p k) as [->|_]; [exfalso|exact Hk].
    apply find_some_in_keys in Hk. destruct Hk as [Hk|Hk].
    + simpl in Hk. subst k0. now rewrite ltb_irrefl in Hp.
    + pose proof (ascending_head_below k0 d0 f Hasc k Hk) as Hlt.
      pose proof (ltb_trans _ _ _ Hp Hlt) as Hc. now rewrite ltb_irrefl in Hc.
  - cbn [find] in Hk |- *. destruct (String.eqb k0 k); [exact Hk|].
    apply IH; [now apply ascending_tail in Hasc|exact Hk].
Qed.

(** ** Lazy initialization *)

Ltac run := unfold bind, ret, throw, object_storage_files, has_query_context; simpl.

Lemma try_initialize_run (u : string) (s : State) :
  try_initialize u s = (Ok (fst (fst (initialize u (world s) (files s)))), fetched u s).
Proof.
  unfold try_initialize, fetched.
  destruct (initialize u (world s) (files s)) as [[failure w] f]. reflexivity.
Qed.

(** The run of [initializeIfNeeded], case by case. *)
Lemma initializeIfNeeded_run (p : string) (t : option bool) (s : State) :
  initializeIfNeeded p t s =
  if contains p (files s) then (Ok true, s)
  else
    match fst (fst (initialize (url / p)%path (world s) (files s))) with
    | None => (Ok true, fetched (url / p)%path s)
    | Some message =>
        if escalates t s then
          (Throw (Exception NETWORK_ERROR ("Cannot load disk metadata. Error: " ++ message)),
           fetched (url / p)%path s)
        else
          (Ok false,
           logged (LOG_TRACE DiskWeb ("Cannot load disk metadata. Error: " ++ message))
             (fetched (url / p)%path s))
    end.
Proof.
  unfold initializeIfNeeded. run.
  destruct (contains p (files s)); simpl; [reflexivity|].
  rewrite try_initialize_run.
  destruct (fst (fst (initialize (url / p)%path (world s) (files s)))) as [message|];
    [|reflexivity].
  destruct t as [[|]|]; simpl; try reflexivity.
  destruct (query_context s); reflexivity.
Qed.

(** With [throw_on_error = false] the lazy init returns. *)
Lemma initializeIfNeeded_quiet (p : string) (s : State) :
  exists b, fst (initializeIfNeeded p (Some false) s) = Ok b.
Proof.
  rewrite initializeIfNeeded_run.
  destruct (contains p (files s)); [now exists true|].
  destruct (fst (fst (initialize _ _ _))); [now exists false|now exists true].
Qed.

(** The Index after a lazy init is the one before it or the fetcher's. *)
Lemma initializeIfNeeded_files (p : string) (t : option bool) (s : State) :
  files (snd (initializeIfNeeded p t s)) = files s
  \/ files (snd (initializeIfNeeded p t s))
     = snd (initialize (url / p)%path (world s) (files s)).
Proof.
  rewrite initializeIfNeeded_run.
  destruct (contains p (files s)); [now left|].
  destruct (fst (fst (initialize _ _ _))); [|now right].
  destruct (escalates t s); now right.
Qed.

Lemma initializeIfNeeded_keeps_entries (p : string) (t : option bool) (s : State) :
  fetcher_contract -> ascending (files s) = true ->
  forall k d, find k (files s) = Some d ->
              find k (files (snd (initializeIfNeeded p t s))) = Some d.
Proof.
  intros Hfetch Hasc k d Hk.
  destruct (initializeIfNeeded_files p t s) as [-> | ->]; [exact Hk|].
  now apply Hfetch.
Qed.

Lemma initializeIfNeeded_keeps_order (p : string) (t : option bool) (s : State) :
  fetcher_contract -> ascending (files s) = true ->
  ascending (files (snd (initializeIfNeeded p t s))) = true.
Proof.
  intros Hfetch Hasc.
  destruct (initializeIfNeeded_files p t s) as [-> | ->]; [exact Hasc|].
  now apply Hfetch.
Qed.

(** C2. [initializeIfNeeded(p, throw_on_error)] returns success without calling
    the fetcher when [p] is an Index key. When the fetcher is called and fails
    with [message], it throws [NETWORK_ERROR] with the message embedded iff
    [throw_on_error] is an explicit true, or is unset under a live query
    context; in every other case of failure it logs at trace level and returns
    false. *)
Theorem initializeIfNeeded_policy (p : string) (t : option bool) (s : State) :
  (contains p (files s) = true -> initializeIfNeeded p t s = (Ok true, s))
  /\ (forall message,
        contains p (files s) = false ->
        fst (fst (initialize (url / p)%path (world s) (files s))) = Some message ->
        let escalate := t = Some true \/ (t = None /\ query_context s = true) in
        (escalate ->
         initializeIfNeeded p t s
         = (Throw (Exception NETWORK_ERROR ("Cannot load disk metadata. Error: " ++ message)),
            fetched (url / p)%path s))
        /\ (~ escalate ->
            initializeIfNeeded p t s
            = (Ok false,
               logged (LOG_TRACE DiskWeb ("Cannot load disk metadata. Error: " ++ message))
                 (fetched (url / p)%path s)))).
Proof.
  rewrite initializeIfNeeded_run. split.
  - intros ->. reflexivity.
  - intros message -> ->. unfold escalates. split.
    + intros [-> | [-> ->]]; reflexivity.
    + intros Hno. destruct t as [[|]|]; [exfalso; auto|reflexivity|].
      destruct (query_context s); [exfalso; auto|reflexivity].
Qed.

(** ** The existence algorithm *)

(** [exists] is its lazy init followed by [answer] on the Index reached. *)
Lemma exists_run (p : string) (s : State) :
  exists_ p s
  = (Ok (answer (files (snd (initializeIfNeeded (probe p) (Some false) s))) p),
     snd (initializeIfNeeded (probe p) (Some false) s)).
Proof.
  unfold exists_, probe, answer. run.
  destruct (initializeIfNeeded_quiet (if fs.has_extension p then fs.parent_path p else p) s)
    as [b Hb].
  destruct (initializeIfNeeded _ (Some false) s) as [r s1]. simpl in Hb. subst r. simpl.
  destruct (empty (files s1)); [reflexivity|].
  destruct (contains p (files s1)); [reflexivity|].
  destruct (Nat.eqb _ _); [reflexivity|].
  destruct (_ || _); reflexivity.
Qed.

(** [exists] returns the state its lazy init leaves. *)
Lemma exists_state (p : string) (s : State) :
  snd (exists_ p s) = snd (initializeIfNeeded (probe p) (Some false) s).
Proof. now rewrite exists_run. Qed.

Lemma answer_of_key (f : Files) (p : string) : contains p f = true -> answer f p = true.
Proof.
  unfold answer, contains. destruct f as [|e f]; [discriminate|].
  cbn [empty]. now intros ->.
Qed.

Lemma first_at_in_keys (f : Files) (i : nat) :
  i < List.length f -> In (first_at f i) (keys f).
Proof.
  intros Hi. unfold first_at. apply nth_In. unfold keys. now rewrite length_map.
Qed.

(** On an ordered Index the answer is true exactly when some key starts with
    the path. *)
Lemma answer_iff (f : Files) (p : string) :
  ascending f = true ->
  answer f p = true <-> exists k, In k (keys f) /\ starts_with k p = true.
Proof.
  intros Hasc. split.
  - unfold answer, end_, begin_, prev.
    destruct (empty f); [discriminate|].
    destruct (contains p f) eqn:Hc.
    + intros _. exists p. split; [now apply contains_in_keys|apply starts_with_refl].
    + pose proof (lower_bound_le f p) as Hle.
      destruct (Nat.eqb_spec (lower_bound f p) (List.length f)) as [|Hne]; [discriminate|].
      intros H. apply orb_true_iff in H as [H|H].
      * exists (first_at f (lower_bound f p)). split; [|exact H].
        apply first_at_in_keys. lia.
      * apply andb_true_iff in H as [_ H].
        exists (first_at f (lower_bound f p - 1)). split; [|exact H].
        apply first_at_in_keys. lia.
  - intros (k & Hin & Hk). unfold answer, end_.
    destruct (lower_bound_hits f p k Hasc Hin Hk) as [Hlt Hs].
    destruct f as [|e f]; [contradiction|]. cbn [empty].
    destruct (contains p (e :: f)); [reflexivity|].
    destruct (Nat.eqb_spec (lower_bound (e :: f) p) (List.length (e :: f))); [lia|].
    now rewrite Hs.
Qed.

(** [exists] answers true for a key of the Index its lazy init leaves. *)
Lemma exists_of_key (p : string) (s : State) :
  contains p (files (snd (initializeIfNeeded (probe p) (Some false) s))) = true ->
  fst (exists_ p s) = Ok true.
Proof. intros Hc. rewrite exists_run. simpl. now rewrite answer_of_key. Qed.

(** C1. For every path [p], [exists(p)] proceeds as section 4.2 words it: a
    lazy init of the probe path ([dirname(p)] when [p] has an extension, else
    [p]) with [throw_on_error = false]; false on an empty Index; true when [p]
    is a key; otherwise true iff the entry at [lower_bound(Index, p)] has a key
    that starts with [p] or the position has a predecessor whose key starts
    with [p]. The call never throws. *)
Theorem exists_follows_spec (p : string) (s : State) :
  exists_ p s = exists_spec p s /\ exists b, fst (exists_ p s) = Ok b.
Proof.
  unfold exists_, exists_spec. run.
  destruct (initializeIfNeeded_quiet (if fs.has_extension p then fs.parent_path p else p) s)
    as [b0 Hb].
  destruct (initializeIfNeeded _ (Some false) s) as [r s1]. simpl in Hb. subst r.
  set (f := files s1).
  destruct (empty f); [split; [reflexivity|now exists false]|].
  destruct (contains p f); [split; [reflexivity|now exists true]|].
  unfold end_, begin_, prev.
  pose proof (lower_bound_le f p) as Hle.
  destruct (Nat.eqb_spec (lower_bound f p) (List.length f)) as [Hend|Hin].
  - split; [|now exists false]. f_equal. f_equal.
    rewrite Hend at 1. rewrite Nat.ltb_irrefl. simpl.
    destruct (Nat.ltb_spec 0 (lower_bound f p)) as [Hpos|_]; [|reflexivity]. simpl.
    destruct (starts_with (first_at f (lower_bound f p - 1)) p) eqn:Hs; [|reflexivity].
    apply starts_with_not_ltb in Hs.
    rewrite lower_bound_below in Hs; [discriminate|lia].
  - assert (Hlt : Nat.ltb (lower_bound f p) (List.length f) = true)
      by (apply Nat.ltb_lt; lia).
    rewrite Hlt. simpl.
    assert (Hpos : negb (Nat.eqb (lower_bound f p) 0) = Nat.ltb 0 (lower_bound f p)).
    { destruct (lower_bound f p); reflexivity. }
    rewrite Hpos.
    destruct (starts_with (first_at f (lower_bound f p)) p
              || Nat.ltb 0 (lower_bound f p)
                 && starts_with (first_at f (lower_bound f p - 1)) p) eqn:Hd;
      (split; [reflexivity|eexists; reflexivity]).
Qed.

(** C4. When the Index holds a key [k] that starts with [p + "/"], [exists(p)]
    returns true: for the ordered Index that [exists] reads, the one its lazy
    init leaves; and so for the ordered Index of the state of the call, the
    fetcher honouring its contract (it leaves an ordered map and drops no
    entry). *)
Theorem exists_of_descendant (p k : string) (s : State) :
  starts_with k (p ++ "/") = true ->
  (ascending (files (snd (exists_ p s))) = true ->
   In k (keys (files (snd (exists_ p s)))) ->
   fst (exists_ p s) = Ok true)
  /\ (fetcher_contract -> ascending (files s) = true -> In k (keys (files s)) ->
      fst (exists_ p s) = Ok true).
Proof.
  intros Hk. apply starts_with_app in Hk. rewrite exists_run. simpl. split.
  - intros Hasc Hin. f_equal. apply answer_iff; [exact Hasc|]. now exists k.
  - intros Hfetch Hasc Hin. f_equal. apply answer_iff.
    + now apply initializeIfNeeded_keeps_order.
    + exists k. split; [|exact Hk]. apply in_keys_find in Hin as [d Hd].
      apply find_some_in_keys with d. now apply initializeIfNeeded_keeps_entries.
Qed.

(** X1. On an ordered Index, [exists(p)] returns true exactly when the Index
    it reads, the one its lazy init leaves, holds a key that starts with [p]
    as a string. *)
Theorem exists_iff_prefixed_key (p : string) (s : State) :
  ascending (files (snd (exists_ p s))) = true ->
  fst (exists_ p s) = Ok true
  <-> exists k, In k (keys (files (snd (exists_ p s)))) /\ starts_with k p = true.
Proof.
  rewrite exists_run. simpl. intros Hasc. rewrite <- (answer_iff _ _ Hasc).
  split; [now intros [= ->]|now intros ->].
Qed.

(** X7. The test of [exists] on the predecessor of the lower bound never
    succeeds: every key before the lower bound of [p] is below [p], and a
    string below [p] does not start with [p]. *)
Theorem predecessor_never_matches (f : Files) (p : string) :
  lower_bound f p <> begin_ ->
  starts_with (first_at f (prev (lower_bound f p))) p = false.
Proof.
  unfold begin_, prev. intros Hpos.
  destruct (starts_with (first_at f (lower_bound f p - 1)) p) eqn:Hs; [|reflexivity].
  apply starts_with_not_ltb in Hs. rewrite lower_bound_below in Hs; [discriminate|lia].
Qed.

(** X2. When the Index is still empty after the lazy init, [exists] returns
    false, whatever the path. *)
Theorem exists_on_empty_index (p : string) (s : State) :
  files (snd (exists_ p s)) = [] -> fst (exists_ p s) = Ok false.
Proof. rewrite exists_run. simpl. now intros ->. Qed.

Lemma ltb_empty (k : string) : String.ltb k "" = false.
Proof. now destruct k. Qed.

(** X3. [exists("")], the root path, returns true whenever the Index is not
    empty. *)
Theorem exists_root (s : State) :
  files (snd (exists_ "" s)) <> [] -> fst (exists_ "" s) = Ok true.
Proof.
  rewrite exists_run. simpl.
  destruct (files (snd (initializeIfNeeded (probe "") (Some false) s))) as [|[k d] f];
    [congruence|].
  intros _. unfold answer. cbn [empty]. destruct (contains "" ((k, d) :: f)); [reflexivity|].
  cbn [lower_bound]. rewrite ltb_empty. simpl. now rewrite starts_with_empty.
Qed.


(** X5. For a path with an extension that is not yet known, the lazy init of
    [exists] asks the fetcher for the directory of the path, not for the path
    itself, and for nothing else. *)
Theorem exists_seeds_directory (p : string) (s : State) :
  fs.has_extension p = true -> contains (fs.parent_path p) (files s) = false ->
  requests (snd (exists_ p s)) = (requests s ++ [(url / fs.parent_path p)%path])%list.
Proof.
  intros Hext Hc. rewrite exists_state. unfold probe. rewrite Hext.
  rewrite initializeIfNeeded_run, Hc.
  destruct (fst (fst (initialize _ _ _))); reflexivity.
Qed.

(** ** Listing *)

(** A loop that pushes back the keys satisfying [keep] is a filter of the keys
    in Index order. *)
Lemma push_back_loop (keep : string -> bool) (f : Files) (acc : list string) :
  fold_left
    (fun (result : list string) (entry : string * FileData) =>
       if keep (fst entry) then (result ++ [fst entry])%list else result)
    f acc
  = (acc ++ filter keep (keys f))%list.
Proof.
  revert acc. induction f as [|[k d] f IH]; intros acc; simpl.
  - now rewrite app_nil_r.
  - rewrite IH. destruct (keep k); [|reflexivity].
    now rewrite <- app_assoc.
Qed.

(** C8. [listDirectory(p)] returns, in Index order, every Index key that has
    [p] as a prefix and nothing else: a flat scan of the keys by prefix, with
    no regard for the directory level. *)
Theorem listDirectory_prefix_scan (p : string) (s : State) :
  exists l,
    listDirectory p s = (Ok l, s)
    /\ l = filter (fun k => starts_with k p) (keys (files s))
    /\ forall k, In k l <-> In k (keys (files s)) /\ starts_with k p = true.
Proof.
  unfold listDirectory. run.
  rewrite (push_back_loop (fun k => starts_with k p)). simpl.
  eexists. split; [reflexivity|]. split; [reflexivity|].
  intros k. exact (filter_In (fun k => starts_with k p) k (keys (files s))).
Qed.

(** C10. [listDirectory(p)] never calls the fetcher and never raises: it
    returns a list and leaves the state (Index, requests sent, log) as it was,
    and its result depends on the Index alone. *)
Theorem listDirectory_reads_only (p : string) (s : State) :
  snd (listDirectory p s) = s
  /\ (exists l, fst (listDirectory p s) = Ok l)
  /\ forall s' : State, files s' = files s ->
                        fst (listDirectory p s') = fst (listDirectory p s).
Proof.
  unfold listDirectory. run. repeat split; [eauto|].
  intros s' ->. reflexivity.
Qed.

(** ** Existence assertion, classification, iteration *)

Lemma contains_find (p : string) (f : Files) (d : FileData) :
  find p f = Some d -> contains p f = true.
Proof. unfold contains. now intros ->. Qed.

(** On a key of the Index [assertExists] passes; the state it leaves is the
    one of the lazy init of [exists], and the entry is still there. *)
Lemma assertExists_key (p : string) (d : FileData) (s : State) :
  fetcher_contract -> ascending (files s) = true -> find p (files s) = Some d ->
  let s1 := snd (initializeIfNeeded (probe p) (Some false) s) in
  assertExists p s = (Ok tt, s1) /\ find p (files s1) = Some d.
Proof.
  intros Hfetch Hasc Hd s1.
  assert (Hd1 : find p (files s1) = Some d)
    by now apply initializeIfNeeded_keeps_entries.
  split; [|exact Hd1].
  unfold assertExists. unfold bind at 1.
  rewrite initializeIfNeeded_run, (contains_find _ _ _ Hd).
  unfold bind at 1. rewrite (surjective_pairing (exists_ p s)).
  rewrite exists_state, exists_of_key; [reflexivity|].
  now apply contains_find with d.
Qed.

Lemma files_at_key (p : string) (d : FileData) (s : State) :
  find p (files s) = Some d -> files_at p s = (Ok d, s).
Proof. unfold files_at. run. now intros ->. Qed.

Lemma files_at_missing (p : string) (s : State) :
  find p (files s) = None -> files_at p s = (Throw out_of_range, s).
Proof. unfold files_at. run. now intros ->. Qed.

Lemma isFile_key (p : string) (d : FileData) (s : State) :
  fetcher_contract -> ascending (files s) = true -> find p (files s) = Some d ->
  fst (isFile p s) = Ok (FileType_eqb (type d) File).
Proof.
  intros Hfetch Hasc Hd. destruct (assertExists_key p d s Hfetch Hasc Hd) as [Ha Hd1].
  unfold isFile. unfold bind at 1. rewrite Ha.
  unfold bind at 1. rewrite (files_at_key _ _ _ Hd1). reflexivity.
Qed.

Lemma isDirectory_key (p : string) (d : FileData) (s : State) :
  fetcher_contract -> ascending (files s) = true -> find p (files s) = Some d ->
  fst (isDirectory p s) = Ok (FileType_eqb (type d) Directory).
Proof.
  intros Hfetch Hasc Hd. destruct (assertExists_key p d s Hfetch Hasc Hd) as [Ha Hd1].
  unfold isDirectory. unfold bind at 1. rewrite Ha.
  unfold bind at 1. rewrite (files_at_key _ _ _ Hd1). reflexivity.
Qed.

(** C5, amended. For every path [p] that is an Index key, [exists(p)] returns
    true and exactly one of [isFile(p)], [isDirectory(p)] returns true while
    the other returns false (the Index being an ordered map and the fetcher
    honouring its contract). *)
Theorem classification_of_key (p : string) (s : State) :
  fetcher_contract -> ascending (files s) = true -> contains p (files s) = true ->
  fst (exists_ p s) = Ok true /\ classified_exclusively p s.
Proof.
  intros Hfetch Hasc Hc. unfold contains in Hc.
  destruct (find p (files s)) as [d|] eqn:Hd; [|discriminate]. split.
  - apply exists_of_key. apply contains_find with d.
    now apply initializeIfNeeded_keeps_entries.
  - unfold classified_exclusively.
    rewrite (isFile_key p d s Hfetch Hasc Hd), (isDirectory_key p d s Hfetch Hasc Hd).
    destruct (type d); [left|right]; split; reflexivity.
Qed.

(** X6. [getFileSize(p)] on an Index key returns the size of its entry. *)
Theorem getFileSize_of_key (p : string) (d : FileData) (s : State) :
  fetcher_contract -> ascending (files s) = true -> find p (files s) = Some d ->
  fst (getFileSize p s) = Ok (size d).
Proof.
  intros Hfetch Hasc Hd. destruct (assertExists_key p d s Hfetch Hasc Hd) as [Ha Hd1].
  unfold getFileSize. unfold bind at 1. rewrite Ha.
  unfold bind at 1. rewrite (files_at_key _ _ _ Hd1). reflexivity.
Qed.

(** X9. For a path that passes the existence assertion without being an
    Index key (a synthetic ancestor), [isFile], [isDirectory] and
    [getFileSize] raise [out_of_range]: the lookup [files.at] has no
    fallback. *)
Theorem lookup_of_synthetic_ancestor (p : string) (s s1 : State) :
  assertExists p s = (Ok tt, s1) -> contains p (files s1) = false ->
  isFile p s = (Throw out_of_range, s1)
  /\ isDirectory p s = (Throw out_of_range, s1)
  /\ getFileSize p s = (Throw out_of_range, s1).
Proof.
  intros Ha Hc. unfold contains in Hc.
  destruct (find p (files s1)) eqn:Hf; [discriminate|].
  unfold isFile, isDirectory, getFileSize. unfold bind at 1 3 5. rewrite Ha.
  unfold bind. now rewrite (files_at_missing p s1 Hf).
Qed.

(** The run of [iterateDirectory], step by step. *)
Lemma iterateDirectory_run (p : string) (s : State) :
  iterateDirectory p s =
  match initializeIfNeeded p None s with
  | (Throw e, s1) => (Throw e, s1)
  | (Ok false, s1) => (Ok [], s1)
  | (Ok true, s1) =>
      match assertExists p s1 with
      | (Throw e, s2) => (Throw e, s2)
      | (Ok _, s2) =>
          let listing := filter (in_directory p) (keys (files s2)) in
          (Ok listing,
           logged (LOG_TRACE object_storage_log
                     ("Iterate directory " ++ p ++ " with "
                      ++ format_size (List.length listing) ++ " files")) s2)
      end
  end.
Proof.
  unfold iterateDirectory. unfold bind at 1.
  destruct (initializeIfNeeded p None s) as [[[|]|e] s1]; try reflexivity.
  cbn [negb]. unfold bind at 1.
  destruct (assertExists p s1) as [[[]|e] s2]; [|reflexivity].
  run. unfold parentPath.
  rewrite (push_back_loop (in_directory p)). reflexivity.
Qed.

(** C7, amended. [iterateDirectory(p)] runs the lazy init with
    [throw_on_error] unset. When the fetcher is called and fails, the call
    raises [NETWORK_ERROR] under a live query context and otherwise returns an
    empty iterator without throwing. When the lazy init succeeds, existence of
    [p] is asserted (its exception, if any, propagates) and the iterator holds,
    in Index order, exactly the keys [x] with [dirname(x)/ == p/]. *)
Theorem iterateDirectory_cases (p : string) (s : State) :
  (forall message,
      contains p (files s) = false ->
      fst (fst (initialize (url / p)%path (world s) (files s))) = Some message ->
      iterateDirectory p s
      = if query_context s then
          (Throw (Exception NETWORK_ERROR ("Cannot load disk metadata. Error: " ++ message)),
           fetched (url / p)%path s)
        else
          (Ok [],
           logged (LOG_TRACE DiskWeb ("Cannot load disk metadata. Error: " ++ message))
             (fetched (url / p)%path s)))
  /\ (forall s1,
        initializeIfNeeded p None s = (Ok true, s1) ->
        match assertExists p s1 with
        | (Throw e, s2) => iterateDirectory p s = (Throw e, s2)
        | (Ok _, s2) =>
            let listing := filter (in_directory p) (keys (files s2)) in
            iterateDirectory p s
            = (Ok listing,
               logged (LOG_TRACE object_storage_log
                         ("Iterate directory " ++ p ++ " with "
                          ++ format_size (List.length listing) ++ " files")) s2)
            /\ forall x, In x listing <->
                         In x (keys (files s2)) /\ in_directory p x = true
        end).
Proof.
  rewrite iterateDirectory_run. split.
  - intros message Hc Hf.
    rewrite initializeIfNeeded_run, Hc, Hf. unfold escalates.
    destruct (query_context s); reflexivity.
  - intros s1 ->.
    destruct (assertExists p s1) as [[[]|e] s2]; [|reflexivity].
    split; [reflexivity|]. intros x. apply filter_In.
Qed.

(** X8. [assertExists(p)] passes the exception of its lazy init on; when the
    lazy init returns and [exists(p)] then answers false, it raises
    [FILE_DOESNT_EXIST], with the message ["There is no path " + p] in a
    build that defines [NDEBUG]. *)
Theorem assertExists_missing (p : string) (s : State) :
  (forall e s1, initializeIfNeeded p None s = (Throw e, s1) ->
                assertExists p s = (Throw e, s1))
  /\ (forall b s1,
        initializeIfNeeded p None s = (Ok b, s1) -> fst (exists_ p s1) = Ok false ->
        exists message,
          assertExists p s = (Throw (Exception FILE_DOESNT_EXIST message), snd (exists_ p s1))
          /\ (NDEBUG = true -> message = "There is no path " ++ p)).
Proof.
  split.
  - intros e s1 Hinit. unfold assertExists. unfold bind at 1. now rewrite Hinit.
  - intros b s1 Hinit Hex. unfold assertExists. unfold bind at 1. rewrite Hinit.
    unfold bind at 1. rewrite (surjective_pairing (exists_ p s1)), Hex. cbn [negb].
    destruct NDEBUG.
    + eexists. split; [reflexivity|reflexivity].
    + run. eexists. split; [reflexivity|discriminate].
Qed.

(** ** Stored objects *)

Lemma stem_append (p : string) : fs.stem (url / p)%path = fs.stem p.
Proof. unfold fs.stem. now rewrite filename_append. Qed.

Lemma extension_append (p : string) : fs.extension (url / p)%path = fs.extension p.
Proof. unfold fs.extension. now rewrite filename_append. Qed.

(** For a relative path, a plain base URL and an escaped stem that is not
    absolute, the remote path is the one of the specification, and it extends
    the base URL. *)
Lemma remote_of_spec (p : string) :
  fs.is_absolute p = false -> plain_base url = true ->
  fs.is_absolute (escapeForFileName (fs.stem p)) = false ->
  remote_of p = remote_spec p /\ exists key, remote_spec p = url ++ key.
Proof.
  intros Hp Hu He.
  assert (Hn : fs.is_absolute (escapeForFileName (fs.stem p) ++ fs.extension p) = false)
    by (apply is_absolute_append; [exact He|apply extension_relative]).
  split.
  - unfold remote_of, remote_spec. rewrite stem_append, extension_append.
    now apply parent_path_append.
  - unfold remote_spec.
    destruct (append_extends url _ (parent_path_relative p Hp)) as [k1 ->].
    destruct (append_extends (url ++ k1) _ Hn) as [k2 ->].
    exists (k1 ++ k2). apply append_assoc.
Qed.

(** On a key of the Index, [getStorageObjects] returns one descriptor, or
    raises [out_of_range] when the remote path is shorter than the base URL. *)
Lemma getStorageObjects_run (p : string) (d : FileData) (s : State) :
  fetcher_contract -> ascending (files s) = true -> find p (files s) = Some d ->
  fst (getStorageObjects p s)
  = match substr (remote_of p) (String.length url) with
    | Some key => Ok [StoredObject_create key (size d) true]
    | None => Throw out_of_range
    end.
Proof.
  intros Hfetch Hasc Hd. destruct (assertExists_key p d s Hfetch Hasc Hd) as [Ha Hd1].
  unfold getStorageObjects. unfold bind at 1. rewrite Ha. fold (remote_of p).
  unfold bind at 1.
  destruct (substr (remote_of p) (String.length url)) as [key|]; [|reflexivity].
  unfold ret at 1. unfold bind at 1. rewrite (files_at_key _ _ _ Hd1). reflexivity.
Qed.

(** C6, amended. For every Index key [p] (ordered Index, fetcher honouring
    its contract), [getStorageObjects(p)] builds
    [r = dirname(url / p) / (escape(stem(p)) + extension(p))] and returns
    exactly one descriptor, with [r] less its first [|url|] characters as key,
    the size of [Index[p]] and [is_remote = true]; it raises [out_of_range]
    when [r] is shorter than [url]. For a relative [p], a base URL that does
    not end in a doubled slash and an escaped stem that does not begin with a
    slash, [r] is [url / dirname(p) / (escape(stem(p)) + extension(p))], which
    starts with [url], and the key is the rest. With [url = "https://h/r"] and
    the path ["t/a.bin"] the key is ["/t/" + escape("a") + ".bin"]. *)
Theorem getStorageObjects_key (p : string) (d : FileData) (s : State) :
  fetcher_contract -> ascending (files s) = true -> find p (files s) = Some d ->
  let r := (fs.parent_path (url / p) / (escapeForFileName (fs.stem p) ++ fs.extension p))%path in
  (String.length url <= String.length r ->
   exists before key,
     r = before ++ key /\ String.length before = String.length url
     /\ fst (getStorageObjects p s)
        = Ok [{| remote_path := key; bytes_size := size d; is_remote := true |}])
  /\ (String.length r < String.length url ->
      fst (getStorageObjects p s) = Throw out_of_range)
  /\ (fs.is_absolute p = false -> plain_base url = true ->
      fs.is_absolute (escapeForFileName (fs.stem p)) = false ->
      r = remote_spec p
      /\ exists key,
           remote_spec p = url ++ key
           /\ fst (getStorageObjects p s)
              = Ok [{| remote_path := key; bytes_size := size d; is_remote := true |}])
  /\ (url = "https://h/r" -> p = "t/a.bin" ->
      fs.is_absolute (escapeForFileName "a") = false ->
      fst (getStorageObjects p s)
      = Ok [{| remote_path := "/t/" ++ escapeForFileName "a" ++ ".bin";
               bytes_size := size d; is_remote := true |}]).
Proof.
  intros Hfetch Hasc Hd r. rewrite (getStorageObjects_run p d s Hfetch Hasc Hd).
  assert (Hr : remote_of p = r)
    by (unfold remote_of, r; now rewrite stem_append, extension_append).
  rewrite Hr. split; [|split; [|split]].
  - intros Hlen. destruct (substr_some r _ Hlen) as (before & key & Hbk & Hb & Hs).
    exists before, key. now rewrite Hs.
  - intros Hlen. now rewrite (substr_none r _ Hlen).
  - intros Hp Hu He. destruct (remote_of_spec p Hp Hu He) as [Heq [key Hk]].
    rewrite Hr in Heq. split; [exact Heq|]. exists key. split; [exact Hk|].
    now rewrite Heq, Hk, substr_app.
  - intros Hurl -> He. subst r. rewrite Hurl.
    change (fs.stem "t/a.bin") with "a".
    change (fs.extension "t/a.bin") with ".bin".
    change (fs.parent_path ("https://h/r" / "t/a.bin")%path) with "https://h/r/t".
    rewrite append_relative by (apply is_absolute_append; [exact He|reflexivity]).
    reflexivity.
Qed.

(** ** The transaction *)

(** C3. Every operation of the transaction either succeeds without effect
    ([createDirectory], [createDirectoryRecursive], [createEmptyMetadataFile],
    [createMetadataFile], [commit]) or raises a fixed error: [NOT_IMPLEMENTED]
    for [chmod], the error of [throwNotAllowed] for the others. None changes
    the state, so the Index and the result of every view operation are as
    before. *)
Theorem transaction_is_pure (c : TransactionCall) (s : State) :
  fst (perform c s)
  = match c with
    | call_createDirectory _ | call_createDirectoryRecursive _
    | call_createEmptyMetadataFile _ | call_createMetadataFile _ _ _
    | call_commit => Ok tt
    | call_chmod _ _ =>
        Throw (Exception NOT_IMPLEMENTED
                 "chmod is not implemented for MetadataStorageFromStaticFilesWebServer")
    | call_writeStringToFile _ _ | call_setLastModified _ _ | call_unlinkFile _
    | call_removeRecursive _ | call_removeDirectory _ | call_moveFile _ _
    | call_moveDirectory _ _ | call_replaceFile _ _ | call_setReadOnly _
    | call_createHardLink _ _ | call_addBlobToMetadata _ _ _
    | call_unlinkMetadata _ => Throw not_allowed
    end
  /\ snd (perform c s) = s
  /\ files (snd (perform c s)) = files s
  /\ forall (A : Type) (view : M State A), view (snd (perform c s)) = view s.
Proof.
  destruct c; repeat split.
Qed.

(** ** What the operations do to the state *)

(** The state [assertExists] leaves: the one of its lazy init when that
    throws, else the one of [exists]. *)
Lemma assertExists_state (p : string) (s : State) :
  snd (assertExists p s)
  = match initializeIfNeeded p None s with
    | (Throw _, s1) => s1
    | (Ok _, s1) => snd (exists_ p s1)
    end.
Proof.
  unfold assertExists. unfold bind at 1.
  destruct (initializeIfNeeded p None s) as [[b|e] s1]; [|reflexivity].
  unfold bind at 1. rewrite exists_run. cbn [fst snd].
  destruct (answer _ p); cbn [negb]; [reflexivity|].
  destruct NDEBUG; reflexivity.
Qed.

(** The lookups after the assertion leave the state of the assertion. *)
Lemma isFile_state (p : string) (s : State) :
  snd (isFile p s) = snd (assertExists p s).
Proof.
  unfold isFile, files_at. unfold bind at 1.
  destruct (assertExists p s) as [[[]|e] s1]; [|reflexivity].
  run. now destruct (find p (files s1)).
Qed.

Lemma isDirectory_state (p : string) (s : State) :
  snd (isDirectory p s) = snd (assertExists p s).
Proof.
  unfold isDirectory, files_at. unfold bind at 1.
  destruct (assertExists p s) as [[[]|e] s1]; [|reflexivity].
  run. now destruct (find p (files s1)).
Qed.

Lemma getFileSize_state (p : string) (s : State) :
  snd (getFileSize p s) = snd (assertExists p s).
Proof.
  unfold getFileSize, files_at. unfold bind at 1.
  destruct (assertExists p s) as [[[]|e] s1]; [|reflexivity].
  run. now destruct (find p (files s1)).
Qed.

Lemma getStorageObjects_state (p : string) (s : State) :
  snd (getStorageObjects p s) = snd (assertExists p s).
Proof.
  unfold getStorageObjects, files_at. unfold bind at 1.
  destruct (assertExists p s) as [[[]|e] s1]; [|reflexivity].
  fold (remote_of p). unfold bind at 1.
  destruct (substr (remote_of p) (String.length url)); [|reflexivity].
  run. now destruct (find p (files s1)).
Qed.

Lemma evolves_refl (s : State) : evolves_within 0 s s.
Proof.
  split; [reflexivity|]. split.
  - exists []. rewrite app_nil_r. auto.
  - exists []. now rewrite app_nil_r.
Qed.

Lemma evolves_weaken (n m : nat) (s s' : State) :
  n <= m -> evolves_within n s s' -> evolves_within m s s'.
Proof.
  intros Hnm (Hq & (sent & Hr & Hlen & Hnone) & Ht).
  split; [exact Hq|]. split; [|exact Ht].
  exists sent. repeat split; try apply Hnone; auto. lia.
Qed.

Lemma evolves_trans (n m : nat) (s s' s'' : State) :
  evolves_within n s s' -> evolves_within m s' s'' -> evolves_within (n + m) s s''.
Proof.
  intros (Hq & (sent & Hr & Hlen & Hnone) & (t & Ht))
         (Hq' & (sent' & Hr' & Hlen' & Hnone') & (t' & Ht')).
  split; [congruence|]. split.
  - exists (sent ++ sent')%list. rewrite Hr', Hr, app_assoc, length_app.
    split; [reflexivity|]. split; [lia|].
    intros Hnil. apply app_eq_nil in Hnil as [-> ->].
    destruct (Hnone eq_refl) as [Hf Hw]. destruct (Hnone' eq_refl) as [Hf' Hw'].
    split; congruence.
  - exists (t ++ t')%list. now rewrite Ht', Ht, app_assoc.
Qed.

Lemma evolves_fetched (u : string) (s : State) : evolves_within 1 s (fetched u s).
Proof.
  split; [reflexivity|]. split.
  - exists [u]. simpl. repeat split; [lia|discriminate|discriminate].
  - exists []. simpl. now rewrite app_nil_r.
Qed.

Lemma evolves_logged (r : LogRecord) (s : State) : evolves_within 0 s (logged r s).
Proof.
  split; [reflexivity|]. split.
  - exists []. simpl. rewrite app_nil_r. auto.
  - now exists [r].
Qed.

Lemma initializeIfNeeded_evolves (p : string) (t : option bool) (s : State) :
  evolves_within 1 s (snd (initializeIfNeeded p t s)).
Proof.
  rewrite initializeIfNeeded_run.
  destruct (contains p (files s)); [apply evolves_weaken with 0; [lia|apply evolves_refl]|].
  destruct (fst (fst (initialize _ _ _))); [|apply evolves_fetched].
  destruct (escalates t s); [apply evolves_fetched|].
  cbn [snd]. apply (evolves_trans 1 0 s (fetched (url / p)%path s));
    [apply evolves_fetched|apply evolves_logged].
Qed.

Lemma exists_evolves (p : string) (s : State) : evolves_within 1 s (snd (exists_ p s)).
Proof. rewrite exists_state. apply initializeIfNeeded_evolves. Qed.

Lemma assertExists_evolves (p : string) (s : State) :
  evolves_within 2 s (snd (assertExists p s)).
Proof.
  rewrite assertExists_state.
  pose proof (initializeIfNeeded_evolves p None s) as H1.
  destruct (initializeIfNeeded p None s) as [[b|e] s1]; cbn [snd] in H1.
  - apply (evolves_trans 1 1 s s1); [exact H1|apply exists_evolves].
  - apply evolves_weaken with 1; [lia|exact H1].
Qed.

Lemma iterateDirectory_evolves (p : string) (s : State) :
  evolves_within 3 s (snd (iterateDirectory p s)).
Proof.
  rewrite iterateDirectory_run.
  pose proof (initializeIfNeeded_evolves p None s) as H1.
  destruct (initializeIfNeeded p None s) as [[[|]|e] s1]; cbn [snd] in H1;
    try (apply evolves_weaken with 1; [lia|exact H1]).
  pose proof (assertExists_evolves p s1) as H2.
  destruct (assertExists p s1) as [[[]|e] s2]; cbn [snd] in *.
  - apply (evolves_trans 1 2 s s1); [exact H1|].
    apply (evolves_trans 2 0 s1 s2); [exact H2|apply evolves_logged].
  - apply (evolves_trans 1 2 s s1); assumption.
Qed.

(** X10. Every operation of the view leaves the query context as it is and
    only appends to the requests sent to the fetcher and to the trace log;
    it sends at most one request ([initializeIfNeeded], [exists]), two
    ([assertExists], [isFile], [isDirectory], [getFileSize],
    [getStorageObjects]) or three ([iterateDirectory]), and none at all in
    [listDirectory]; when it sends none, the Index is the one before: the view
    itself never writes to the Index. *)
Theorem view_operations_evolve (p : string) (s : State) :
  (forall t, evolves_within 1 s (snd (initializeIfNeeded p t s)))
  /\ evolves_within 1 s (snd (exists_ p s))
  /\ evolves_within 2 s (snd (assertExists p s))
  /\ evolves_within 2 s (snd (isFile p s))
  /\ evolves_within 2 s (snd (isDirectory p s))
  /\ evolves_within 2 s (snd (getFileSize p s))
  /\ evolves_within 2 s (snd (getStorageObjects p s))
  /\ evolves_within 0 s (snd (listDirectory p s))
  /\ evolves_within 3 s (snd (iterateDirectory p s)).
Proof.
  rewrite isFile_state, isDirectory_state, getFileSize_state, getStorageObjects_state.
  split; [intros t; apply initializeIfNeeded_evolves|].
  split; [apply exists_evolves|].
  do 5 (split; [apply assertExists_evolves|]).
  split; [apply evolves_refl|apply iterateDirectory_evolves].
Qed.

Lemma index_kept_refl (s : State) : index_kept s s.
Proof. intros Hasc. split; [exact Hasc|]. now intros k d. Qed.

Lemma index_kept_trans (s s' s'' : State) :
  index_kept s s' -> index_kept s' s'' -> index_kept s s''.
Proof.
  intros H1 H2 Hasc. destruct (H1 Hasc) as [Hasc' Hext]. destruct (H2 Hasc') as [Hasc'' Hext'].
  split; [exact Hasc''|]. intros k d Hk. apply Hext', Hext, Hk.
Qed.

Lemma initializeIfNeeded_index_kept (p : string) (t : option bool) (s : State) :
  fetcher_contract -> index_kept s (snd (initializeIfNeeded p t s)).
Proof.
  intros Hfetch Hasc. split.
  - now apply initializeIfNeeded_keeps_order.
  - intros k d. now apply initializeIfNeeded_keeps_entries.
Qed.

Lemma exists_index_kept (p : string) (s : State) :
  fetcher_contract -> index_kept s (snd (exists_ p s)).
Proof. intros Hfetch. rewrite exists_state. now apply initializeIfNeeded_index_kept. Qed.

Lemma assertExists_index_kept (p : string) (s : State) :
  fetcher_contract -> index_kept s (snd (assertExists p s)).
Proof.
  intros Hfetch. rewrite assertExists_state.
  pose proof (initializeIfNeeded_index_kept p None s Hfetch) as H1.
  destruct (initializeIfNeeded p None s) as [[b|e] s1]; cbn [snd] in H1; [|exact H1].
  apply index_kept_trans with s1; [exact H1|now apply exists_index_kept].
Qed.

Lemma iterateDirectory_index_kept (p : string) (s : State) :
  fetcher_contract -> index_kept s (snd (iterateDirectory p s)).
Proof.
  intros Hfetch. rewrite iterateDirectory_run.
  pose proof (initializeIfNeeded_index_kept p None s Hfetch) as H1.
  destruct (initializeIfNeeded p None s) as [[[|]|e] s1]; cbn [snd] in H1; try exact H1.
  pose proof (assertExists_index_kept p s1 Hfetch) as H2.
  destruct (assertExists p s1) as [[[]|e] s2]; cbn [snd] in *;
    apply index_kept_trans with s1; assumption.
Qed.

(** X11. With a fetcher that honours the contract of the Index, every
    operation of the view, whether it returns or throws, leaves an ordered
    Index that holds every entry of the Index before it: nothing the view does
    removes or changes an entry. *)
Theorem view_operations_keep_index (p : string) (s : State) :
  fetcher_contract ->
  (forall t, index_kept s (snd (initializeIfNeeded p t s)))
  /\ index_kept s (snd (exists_ p s))
  /\ index_kept s (snd (assertExists p s))
  /\ index_kept s (snd (isFile p s))
  /\ index_kept s (snd (isDirectory p s))
  /\ index_kept s (snd (getFileSize p s))
  /\ index_kept s (snd (getStorageObjects p s))
  /\ index_kept s (snd (iterateDirectory p s)).
Proof.
  intros Hfetch.
  rewrite isFile_state, isDirectory_state, getFileSize_state, getStorageObjects_state.
  split; [intros t; now apply initializeIfNeeded_index_kept|].
  split; [now apply exists_index_kept|].
  do 5 (split; [now apply assertExists_index_kept|]).
  now apply iterateDirectory_index_kept.
Qed.

(** ** Order of the listings *)

Lemma keys_ascending (f : Files) : ascending f = true -> paths_ascending (keys f).
Proof.
  induction f as [|[k d] f IH]; intros Hasc; [constructor|].
  simpl. constructor.
  - apply IH. now apply ascending_tail in Hasc.
  - apply Forall_forall. intros k' Hin. now apply (ascending_head_below k d f).
Qed.

Lemma filter_ascending (keep : string -> bool) (l : list string) :
  paths_ascending l -> paths_ascending (filter keep l).
Proof.
  induction 1 as [|a l Hl IH Ha]; simpl; [constructor|].
  destruct (keep a); [|exact IH]. constructor; [exact IH|].
  apply Forall_forall. intros x Hx. apply filter_In in Hx as [Hx _].
  now apply (proj1 (Forall_forall _ _) Ha).
Qed.

Lemma ascending_NoDup (l : list string) : paths_ascending l -> NoDup l.
Proof.
  induction 1 as [|a l Hl IH Ha]; constructor; [|exact IH].
  intros Hin. apply (proj1 (Forall_forall _ _) Ha) in Hin.
  now rewrite ltb_irrefl in Hin.
Qed.

(** X12. On an ordered Index [listDirectory] returns its paths in strictly
    ascending order, so no path twice. *)
Theorem listDirectory_ascending (p : string) (s : State) :
  ascending (files s) = true ->
  exists l, listDirectory p s = (Ok l, s) /\ paths_ascending l /\ NoDup l.
Proof.
  intros Hasc. unfold listDirectory. run.
  rewrite (push_back_loop (fun k => starts_with k p)). simpl.
  eexists. split; [reflexivity|].
  assert (H : paths_ascending (filter (fun k => starts_with k p) (keys (files s))))
    by now apply filter_ascending, keys_ascending.
  split; [exact H|now apply ascending_NoDup].
Qed.


(** ** How the operations compose *)

Lemma starts_with_trans (k q p : string) :
  starts_with k q = true -> starts_with q p = true -> starts_with k p = true.
Proof.
  revert k q. induction p as [|b p IH]; intros k q Hkq Hqp; [apply starts_with_empty|].
  destruct q as [|c q]; [discriminate|]. apply starts_with_cons in Hqp as [-> Hqp].
  destruct k as [|a k]; [discriminate|]. apply starts_with_cons in Hkq as [-> Hkq].
  apply starts_with_cons. split; [reflexivity|]. now apply IH with q.
Qed.

(** An assertion followed by the lookup of the entry and a projection. *)
Lemma lookup_run (A : Type) (project : FileData -> A) (p : string) (s : State) :
  (assertExists p ;; data <- files_at p ;; ret (project data)) s
  = match assertExists p s with
    | (Throw e, s1) => (Throw e, s1)
    | (Ok _, s1) =>
        match find p (files s1) with
        | Some d => (Ok (project d), s1)
        | None => (Throw out_of_range, s1)
        end
    end.
Proof.
  unfold bind at 1. destruct (assertExists p s) as [[[]|e] s1]; [|reflexivity].
  unfold files_at. run. now destruct (find p (files s1)).
Qed.

Lemma FileType_eqb_Directory (t : FileType) :
  FileType_eqb t Directory = negb (FileType_eqb t File).
Proof. now destruct t. Qed.

(** X14. [isFile(p)] and [isDirectory(p)] run alike from the same state: they
    leave the same state, throw the same exception, and when they return they
    return opposite answers. *)
Theorem classification_in_step (p : string) (s : State) :
  match isFile p s with
  | (Ok b, s') => isDirectory p s = (Ok (negb b), s')
  | (Throw e, s') => isDirectory p s = (Throw e, s')
  end.
Proof.
  unfold isFile, isDirectory. rewrite !lookup_run.
  destruct (assertExists p s) as [[[]|e] s1]; [|reflexivity].
  destruct (find p (files s1)) as [d|]; [|reflexivity].
  now rewrite FileType_eqb_Directory.
Qed.

(** X15. Whenever [getStorageObjects(p)] returns, it returns exactly one
    descriptor, flagged remote, whose size is what [getFileSize(p)] returns
    from the same state. *)
Theorem object_size_is_file_size (p : string) (s s' : State) (l : list StoredObject) :
  getStorageObjects p s = (Ok l, s') ->
  exists key n,
    l = [{| remote_path := key; bytes_size := n; is_remote := true |}]
    /\ getFileSize p s = (Ok n, s').
Proof.
  unfold getFileSize. rewrite lookup_run.
  unfold getStorageObjects, files_at. unfold bind at 1.
  destruct (assertExists p s) as [[[]|e] s1]; [|discriminate].
  fold (remote_of p). unfold bind at 1.
  destruct (substr (remote_of p) (String.length url)) as [key|]; [|discriminate].
  run. destruct (find p (files s1)) as [d|]; [|discriminate].
  intros [= <- <-]. now exists key, (size d).
Qed.

(** X16. The lookups on a cached path are pure reads: when [p] and the probe
    path of [p] are Index keys, [exists], [assertExists], [isFile],
    [isDirectory], [getFileSize] and [getStorageObjects] send no request, log
    nothing and leave the state as it was. *)
Theorem cached_lookups_are_pure (p : string) (s : State) :
  contains p (files s) = true -> contains (probe p) (files s) = true ->
  exists_ p s = (Ok true, s)
  /\ assertExists p s = (Ok tt, s)
  /\ snd (isFile p s) = s /\ snd (isDirectory p s) = s
  /\ snd (getFileSize p s) = s /\ snd (getStorageObjects p s) = s.
Proof.
  intros Hp Hq.
  assert (Hinit : initializeIfNeeded (probe p) (Some false) s = (Ok true, s))
    by now rewrite initializeIfNeeded_run, Hq.
  assert (Hex : exists_ p s = (Ok true, s))
    by now rewrite exists_run, Hinit; cbn [snd]; rewrite answer_of_key.
  assert (Ha : assertExists p s = (Ok tt, s)).
  { unfold assertExists. unfold bind at 1. rewrite initializeIfNeeded_run, Hp.
    unfold bind at 1. now rewrite Hex. }
  rewrite isFile_state, isDirectory_state, getFileSize_state, getStorageObjects_state, Ha.
  repeat split; assumption.
Qed.

Lemma filter_narrow (f g : string -> bool) (l : list string) :
  (forall x, g x = true -> f x = true) -> filter g (filter f l) = filter g l.
Proof.
  intros Hgf. induction l as [|x l IH]; [reflexivity|]. simpl.
  destruct (f x) eqn:Hf; simpl; [now rewrite IH|].
  destruct (g x) eqn:Hg; [|exact IH]. apply Hgf in Hg. congruence.
Qed.

(** X17. A longer prefix narrows the listing: when [q] starts with [p],
    [listDirectory(q)] is [listDirectory(p)] restricted to the paths that start
    with [q], in the same order. *)
Theorem listDirectory_narrows (p q : string) (s : State) :
  starts_with q p = true ->
  exists lp lq,
    listDirectory p s = (Ok lp, s) /\ listDirectory q s = (Ok lq, s)
    /\ lq = filter (fun k => starts_with k q) lp
    /\ forall k, In k lq -> In k lp.
Proof.
  intros Hqp. unfold listDirectory. run.
  rewrite (push_back_loop (fun k => starts_with k p)),
    (push_back_loop (fun k => starts_with k q)). simpl.
  do 2 eexists. split; [reflexivity|]. split; [reflexivity|].
  assert (Hn : filter (fun k => starts_with k q) (keys (files s))
               = filter (fun k => starts_with k q)
                   (filter (fun k => starts_with k p) (keys (files s)))).
  { symmetry. apply filter_narrow. intros x Hx. now apply starts_with_trans with q. }
  split; [exact Hn|]. intros k. rewrite Hn. intros Hk. now apply filter_In in Hk.
Qed.

Lemma filter_nonempty (keep : string -> bool) (l : list string) :
  filter keep l <> [] <-> exists k, In k l /\ keep k = true.
Proof.
  split.
  - destruct (filter keep l) as [|k r] eqn:Hf; [congruence|]. intros _.
    exists k. apply filter_In. rewrite Hf. now left.
  - intros (k & Hk) Hnil. apply filter_In in Hk. rewrite Hnil in Hk. contradiction.
Qed.

(** X18. On an ordered Index, [exists(p)] returns true exactly when
    [listDirectory(p)], asked in the state [exists] leaves, returns at least
    one path. *)
Theorem exists_iff_listed (p : string) (s : State) :
  ascending (files (snd (exists_ p s))) = true ->
  fst (exists_ p s) = Ok true <-> fst (listDirectory p (snd (exists_ p s))) <> Ok [].
Proof.
  intros Hasc. unfold listDirectory. run.
  rewrite (push_back_loop (fun k => starts_with k p)). simpl.
  rewrite exists_run in *. cbn [fst snd] in *.
  set (f := files (snd (initializeIfNeeded (probe p) (Some false) s))) in *.
  transitivity (filter (fun k => starts_with k p) (keys f) <> []).
  - rewrite filter_nonempty, <- (answer_iff f p Hasc).
    split; [now intros [= ->]|now intros ->].
  - split; [congruence|]. intros H Hnil. apply H. now rewrite Hnil.
Qed.

(** X19. Existence is closed under string prefixes: once [exists(p)] has
    returned true, [exists(q)] returns true for every [q] that [p] starts with,
    so for every ancestor directory of [p] (ordered Index, fetcher honouring
    its contract). *)
Theorem exists_prefix_closed (p q : string) (s : State) :
  fetcher_contract -> ascending (files (snd (exists_ p s))) = true ->
  starts_with p q = true ->
  fst (exists_ p s) = Ok true -> fst (exists_ q (snd (exists_ p s))) = Ok true.
Proof.
  intros Hfetch. rewrite (exists_run p s). cbn [fst snd]. intros Hasc Hpq [= Htrue].
  apply (answer_iff _ _ Hasc) in Htrue as (k & Hin & Hk).
  apply in_keys_find in Hin as [d Hd].
  rewrite exists_run. cbn [fst]. f_equal. apply answer_iff.
  - now apply initializeIfNeeded_keeps_order.
  - exists k. split; [|now apply starts_with_trans with p].
    apply find_some_in_keys with d. now apply initializeIfNeeded_keeps_entries.
Qed.

(** X20. A fetch that succeeds without listing the path is not remembered:
    for a path [p] without extension that is no Index key, when the fetcher
    answers the request for [url / p] with success and leaves the Index and
    the world as they are, [iterateDirectory(p)] sends that same request three
    times (its own lazy init, the one of [assertExists], the one of
    [exists]). *)
Theorem iterateDirectory_repeats_request (p : string) (s : State) :
  fs.has_extension p = false -> contains p (files s) = false ->
  initialize (url / p)%path (world s) (files s) = (None, world s, files s) ->
  requests (snd (iterateDirectory p s))
  = (requests s ++ [(url / p)%path; (url / p)%path; (url / p)%path])%list.
Proof.
  intros Hext Hc Hfetch.
  assert (Hstep : forall s0 t,
             files s0 = files s -> world s0 = world s ->
             initializeIfNeeded p t s0 = (Ok true, fetched (url / p)%path s0)
             /\ files (fetched (url / p)%path s0) = files s
             /\ world (fetched (url / p)%path s0) = world s
             /\ requests (fetched (url / p)%path s0)
                = (requests s0 ++ [(url / p)%path])%list).
  { intros s0 t Hf Hw. rewrite initializeIfNeeded_run, Hf, Hw, Hc, Hfetch.
    unfold fetched. rewrite Hf, Hw, Hfetch. auto. }
  destruct (Hstep s None eq_refl eq_refl) as (H1 & Hf1 & Hw1 & Hr1).
  set (s1 := fetched (url / p)%path s) in *.
  destruct (Hstep s1 None Hf1 Hw1) as (H2 & Hf2 & Hw2 & Hr2).
  set (s2 := fetched (url / p)%path s1) in *.
  destruct (Hstep s2 (Some false) Hf2 Hw2) as (H3 & Hf3 & Hw3 & Hr3).
  set (s3 := fetched (url / p)%path s2) in *.
  assert (Hprobe : probe p = p) by (unfold probe; now rewrite Hext).
  assert (Ha : snd (assertExists p s1) = s3).
  { rewrite assertExists_state, H2, exists_state, Hprobe, H3. reflexivity. }
  rewrite iterateDirectory_run, H1.
  destruct (assertExists p s1) as [[[]|e] s'] eqn:Hassert; cbn [snd] in *; subst s';
    cbn [requests logged]; rewrite Hr3, Hr2, Hr1, <- !app_assoc; reflexivity.
Qed.

(** [exists] answers true for every key of an ordered Index (the fetcher
    honouring its contract). *)
Lemma exists_of_index_key (x : string) (s : State) :
  fetcher_contract -> ascending (files s) = true -> In x (keys (files s)) ->
  fst (exists_ x s) = Ok true.
Proof.
  intros Hfetch Hasc Hin. apply in_keys_find in Hin as [d Hd].
  apply exists_of_key. apply contains_find with d.
  now apply initializeIfNeeded_keeps_entries.
Qed.

(** X21. What the listings return exists: with an ordered Index and a fetcher
    that honours the contract, [exists(x)] returns true for every path [x]
    that [listDirectory(p)] or [iterateDirectory(p)] returns, asked in the
    state the listing leaves. *)
Theorem listed_paths_exist (p : string) (s : State) :
  fetcher_contract -> ascending (files s) = true ->
  (forall l s', listDirectory p s = (Ok l, s') ->
                forall x, In x l -> fst (exists_ x s') = Ok true)
  /\ (forall l s', iterateDirectory p s = (Ok l, s') ->
                   forall x, In x l -> fst (exists_ x s') = Ok true).
Proof.
  intros Hfetch Hasc. split.
  - intros l s'. unfold listDirectory. run.
    rewrite (push_back_loop (fun k => starts_with k p)). simpl.
    intros [= <- <-] x Hx. apply filter_In in Hx as [Hx _].
    now apply exists_of_index_key.
  - intros l s' Hrun x Hx.
    pose proof (iterateDirectory_index_kept p s Hfetch Hasc) as [Hasc' _].
    rewrite Hrun in Hasc'. cbn [snd] in Hasc'.
    apply exists_of_index_key; [exact Hfetch|exact Hasc'|].
    revert Hrun Hx. rewrite iterateDirectory_run.
    destruct (initializeIfNeeded p None s) as [[[|]|e] s1]; try discriminate.
    + destruct (assertExists p s1) as [[[]|e] s2]; [|discriminate].
      intros [= <- <-] Hx. now apply filter_In in Hx.
    + intros [= <- <-] [].
Qed.

(** X22. On an Index key [iterateDirectory] always returns: with an ordered
    Index and a fetcher that honours the contract, for every key [p] the call
    neither throws nor returns early, and yields the keys [x] of the Index it
    leaves with [dirname(x)/ == p/]. *)
Theorem iterateDirectory_of_key (p : string) (s : State) :
  fetcher_contract -> ascending (files s) = true -> contains p (files s) = true ->
  exists l s',
    iterateDirectory p s = (Ok l, s')
    /\ l = filter (in_directory p) (keys (files s'))
    /\ extends (files s) (files s').
Proof.
  intros Hfetch Hasc Hc. unfold contains in Hc.
  destruct (find p (files s)) as [d|] eqn:Hd; [|discriminate].
  destruct (assertExists_key p d s Hfetch Hasc Hd) as [Ha _].
  pose proof (assertExists_index_kept p s Hfetch Hasc) as [_ Hext].
  rewrite Ha in Hext. cbn [snd] in Hext.
  rewrite iterateDirectory_run, initializeIfNeeded_run, (contains_find _ _ _ Hd), Ha.
  do 2 eexists. split; [reflexivity|]. split; [reflexivity|exact Hext].
Qed.

End MetadataStorage.

(** ** The stand-ins at work *)

(** The stand-in fetcher honours the contract of the Index. *)
Lemma serve_contract : fetcher_contract unit Demo.serve.
Proof.
  intros u w f Hasc. unfold Demo.serve.
  destruct (String.eqb u "https://h/r/t"); simpl; [|now split].
  split.
  - now repeat apply emplace_ascending.
  - intros k d Hk. apply emplace_keeps; [now apply emplace_ascending|].
    now apply emplace_keeps.
Qed.

(** Pathnames: parents, stems and extensions, joins, comparison. *)
Example pathnames :
  fs.parent_path "t/a.bin" = "t" /\ fs.parent_path "a.bin" = "" /\
  fs.parent_path "/a.bin" = "/" /\ fs.parent_path "t/" = "t" /\
  fs.parent_path "a//b" = "a" /\ fs.parent_path "/" = "/" /\
  fs.parent_path "https://h/r/t/a.bin" = "https://h/r/t" /\
  fs.stem "t/a.tar.gz" = "a.tar" /\ fs.extension "t/a.tar.gz" = ".gz" /\
  fs.extension "t/.profile" = "" /\ fs.extension "t/.." = "" /\
  fs.extension "t.d/a" = "" /\ fs.stem "t/" = "" /\
  ("https://h/r" / "t/a.bin")%path = "https://h/r/t/a.bin" /\
  ("https://h/r/" / "t")%path = "https://h/r/t" /\
  ("https://h/r" / "/t")%path = "/t" /\ ("t" / "")%path = "t/" /\
  ("" / "")%path = "" /\
  fs.equal "t//" "t/" = true /\ fs.equal "t" "t/" = false /\
  fs.equal "/t" "t" = false /\ fs.equal "a//b" "a/b" = true /\
  Demo.escape "a" = "a" /\ Demo.escape "a-b.c" = "a%2Db%2Ec".
Proof. repeat split; reflexivity. Qed.

(** Scenario 1 and 2 of the specification: a cold lookup fetches the directory
    of the file; then the file and its directory are classified, listed and
    iterated. *)
Example cold_lookup :
  exists_ unit Demo.base_url Demo.serve "t/a.bin" (Demo.disk [] false)
  = (Ok true,
     {| files := Demo.fetched_t; world := tt; requests := ["https://h/r/t"];
        trace := []; query_context := false |})
  /\ fst (isFile unit Demo.base_url Demo.serve true "t/a.bin" (Demo.disk Demo.fetched_t false))
     = Ok true
  /\ fst (getFileSize unit Demo.base_url Demo.serve true "t/a.bin"
            (Demo.disk Demo.fetched_t false))
     = Ok 100%N
  /\ fst (isDirectory unit Demo.base_url Demo.serve true "t" (Demo.disk Demo.fetched_t false))
     = Ok true
  /\ fst (listDirectory unit "" (Demo.disk Demo.fetched_t false)) = Ok ["t"; "t/a.bin"]
  /\ fst (iterateDirectory unit Demo.base_url Demo.serve true "t"
            (Demo.disk Demo.fetched_t false))
     = Ok ["t/a.bin"].
Proof. repeat split; reflexivity. Qed.

(** Scenarios 4 and 5 of the specification: a write is rejected and the size
    of the file is as before; creating a directory and committing succeed and
    the directory does not come to exist. *)
Example read_only_disk (rejected : exception) :
  let s := Demo.disk Demo.fetched_t false in
  perform unit rejected (call_writeStringToFile "t/a.bin" "x") s = (Throw rejected, s)
  /\ fst (getFileSize unit Demo.base_url Demo.serve true "t/a.bin" s) = Ok 100%N
  /\ perform unit rejected (call_createDirectory "t/new") s = (Ok tt, s)
  /\ perform unit rejected call_commit s = (Ok tt, s)
  /\ fst (exists_ unit Demo.base_url Demo.serve "t/new" s) = Ok false.
Proof. repeat split; reflexivity. Qed.

(** Witness of C2: a known key costs no request; with no entry for [x] and a
    fetch that fails with 404, the lazy init throws when the flag is unset
    under a live query context, and logs and returns false when the flag is
    false. *)
Lemma initializeIfNeeded_policy_witness :
  initializeIfNeeded unit Demo.base_url Demo.serve "t" None (Demo.disk Demo.fetched_t true)
  = (Ok true, Demo.disk Demo.fetched_t true)
  /\ initializeIfNeeded unit Demo.base_url Demo.serve "x" None (Demo.disk [] true)
     = (Throw (Exception NETWORK_ERROR "Cannot load disk metadata. Error: 404"),
        fetched unit Demo.serve "https://h/r/x" (Demo.disk [] true))
  /\ initializeIfNeeded unit Demo.base_url Demo.serve "x" (Some false) (Demo.disk [] true)
     = (Ok false,
        logged unit (LOG_TRACE DiskWeb "Cannot load disk metadata. Error: 404")
          (fetched unit Demo.serve "https://h/r/x" (Demo.disk [] true))).
Proof.
  split; [|split].
  - exact (proj1 (initializeIfNeeded_policy unit Demo.base_url Demo.serve "t" None
                    (Demo.disk Demo.fetched_t true))
             eq_refl).
  - exact (proj1
             (proj2 (initializeIfNeeded_policy unit Demo.base_url Demo.serve "x" None
                       (Demo.disk [] true))
                "404" eq_refl eq_refl)
             (or_intror (conj eq_refl eq_refl))).
  - apply (proj2
             (proj2 (initializeIfNeeded_policy unit Demo.base_url Demo.serve "x"
                       (Some false) (Demo.disk [] true))
                "404" eq_refl eq_refl)).
    intros [H|[H _]]; discriminate.
Defined.

(** Witness of C4: the key [t/a.bin] makes [exists("t")] true, on the Index
    as [exists] reads it and on the Index of the call. *)
Lemma exists_of_descendant_witness :
  fst (exists_ unit Demo.base_url Demo.serve "t" (Demo.disk [("t/a.bin", Demo.file 100)] false))
  = Ok true
  /\ fst (exists_ unit Demo.base_url Demo.serve "store"
            (Demo.disk [("store/a.bin", Demo.file 100)] false))
     = Ok true.
Proof.
  split.
  - apply (proj2 (exists_of_descendant unit Demo.base_url Demo.serve "t" "t/a.bin"
                    (Demo.disk [("t/a.bin", Demo.file 100)] false) eq_refl)
             serve_contract).
    + reflexivity.
    + simpl. left. reflexivity.
  - apply (proj1 (exists_of_descendant unit Demo.base_url Demo.serve "store" "store/a.bin"
                    (Demo.disk [("store/a.bin", Demo.file 100)] false) eq_refl)).
    + reflexivity.
    + simpl. left. reflexivity.
Defined.

(** Counterexample to C5: with the only key [store/a.bin], [exists("store")]
    returns true, yet [isFile("store")] and [isDirectory("store")] both raise
    [out_of_range] at [files.at]. *)
Lemma classification_counterexample :
  let s := Demo.disk [("store/a.bin", Demo.file 100)] false in
  fst (exists_ unit Demo.base_url Demo.serve "store" s) = Ok true
  /\ fst (isFile unit Demo.base_url Demo.serve true "store" s) = Throw out_of_range
  /\ fst (isDirectory unit Demo.base_url Demo.serve true "store" s) = Throw out_of_range
  /\ ~ classified_exclusively unit Demo.base_url Demo.serve true "store" s.
Proof.
  repeat split; try reflexivity.
  unfold classified_exclusively. intros [[H _]|[H _]]; vm_compute in H; discriminate.
Qed.

(** Witness of C5 as amended: the key [t/a.bin] is a file and not a
    directory. *)
Lemma classification_of_key_witness :
  fst (exists_ unit Demo.base_url Demo.serve "t/a.bin" (Demo.disk Demo.fetched_t false))
  = Ok true
  /\ classified_exclusively unit Demo.base_url Demo.serve true "t/a.bin"
       (Demo.disk Demo.fetched_t false).
Proof.
  apply (classification_of_key unit Demo.base_url Demo.serve true "t/a.bin"
           (Demo.disk Demo.fetched_t false) serve_contract); reflexivity.
Defined.

(** Counterexample to C6: an absolute key [/a.bin] passes the existence
    assertion, but [url / "/a.bin"] is ["/a.bin"], shorter than the base URL,
    and [substr] raises [out_of_range]; and with a base URL that ends in a
    doubled slash the parent path drops both slashes, so the key of [a.bin]
    is not the one of the specification's formula. *)
Lemma getStorageObjects_counterexample :
  (let s := Demo.disk [("/a.bin", Demo.file 100)] false in
   fst (assertExists unit Demo.base_url Demo.serve true "/a.bin" s) = Ok tt
   /\ fst (getStorageObjects unit Demo.base_url Demo.serve Demo.escape true "/a.bin" s)
      = Throw out_of_range)
  /\ (let s := Demo.disk [("a.bin", Demo.file 100)] false in
      fst (getStorageObjects unit "h//" Demo.serve Demo.escape true "a.bin" s)
      = Ok [{| remote_path := ".bin"; bytes_size := 100; is_remote := true |}]
      /\ substr (remote_spec "h//" Demo.escape "a.bin") (String.length "h//")
         = Some "a.bin").
Proof. repeat split; reflexivity. Qed.

(** Witness of C6 as amended: the object of [t/a.bin] under
    [https://h/r]. *)
Lemma getStorageObjects_key_witness :
  fst (getStorageObjects unit "https://h/r" Demo.serve Demo.escape true "t/a.bin"
         (Demo.disk Demo.fetched_t false))
  = Ok [{| remote_path := "/t/a.bin"; bytes_size := 100; is_remote := true |}]
  /\ exists key,
       remote_spec "https://h/r" Demo.escape "t/a.bin" = "https://h/r" ++ key
       /\ fst (getStorageObjects unit "https://h/r" Demo.serve Demo.escape true "t/a.bin"
                 (Demo.disk Demo.fetched_t false))
          = Ok [{| remote_path := key; bytes_size := 100; is_remote := true |}].
Proof.
  pose proof (getStorageObjects_key unit "https://h/r" Demo.serve Demo.escape true
                "t/a.bin" (Demo.file 100) (Demo.disk Demo.fetched_t false)
                serve_contract eq_refl eq_refl) as (_ & _ & Hspec & Hexample).
  split.
  - exact (Hexample eq_refl eq_refl eq_refl).
  - exact (proj2 (Hspec eq_refl eq_refl eq_refl)).
Defined.

(** Counterexample to C7: the fetch for [x] fails; under a live query context
    [iterateDirectory("x")] raises [NETWORK_ERROR] instead of returning an
    empty iterator. *)
Lemma iterateDirectory_counterexample :
  fst (fst (Demo.serve (Demo.base_url / "x")%path tt [])) = Some "404"
  /\ fst (iterateDirectory unit Demo.base_url Demo.serve true "x" (Demo.disk [] true))
     = Throw (Exception NETWORK_ERROR "Cannot load disk metadata. Error: 404")
  /\ fst (iterateDirectory unit Demo.base_url Demo.serve true "x" (Demo.disk [] false))
     = Ok [].
Proof. repeat split; reflexivity. Qed.

(** Witness of C7 as amended: the failed fetch for [x] without a query
    context gives the empty iterator and one trace record; the directory [t]
    is iterated from the Index. *)
Lemma iterateDirectory_cases_witness :
  iterateDirectory unit Demo.base_url Demo.serve true "x" (Demo.disk [] false)
  = (Ok [],
     logged unit (LOG_TRACE DiskWeb "Cannot load disk metadata. Error: 404")
       (fetched unit Demo.serve "https://h/r/x" (Demo.disk [] false)))
  /\ iterateDirectory unit Demo.base_url Demo.serve true "t" (Demo.disk Demo.fetched_t false)
     = (Ok ["t/a.bin"],
        logged unit (LOG_TRACE object_storage_log "Iterate directory t with 1 files")
          (Demo.disk Demo.fetched_t false)).
Proof.
  split.
  - exact (proj1 (iterateDirectory_cases unit Demo.base_url Demo.serve true "x"
                    (Demo.disk [] false))
             "404" eq_refl eq_refl).
  - exact (proj1 (proj2 (iterateDirectory_cases unit Demo.base_url Demo.serve true "t"
                           (Demo.disk Demo.fetched_t false))
                    (Demo.disk Demo.fetched_t false) eq_refl)).
Defined.

(** C9. There are an Index and a path [p] such that [exists(p)] returns true
    although [p] is no key and no key starts with [p + "/"]: with the only key
    [table], [exists("tab")] is true, the test being on the prefix of the
    string. *)
Theorem exists_by_string_prefix :
  exists (s : State unit) (p : string),
    fst (exists_ unit Demo.base_url Demo.serve p s) = Ok true
    /\ files (snd (exists_ unit Demo.base_url Demo.serve p s)) = files s
    /\ keys (files s) = ["table"]
    /\ p = "tab"
    /\ contains p (files s) = false
    /\ forall k, In k (keys (files s)) -> starts_with k (p ++ "/") = false.
Proof.
  exists (Demo.disk [("table", Demo.directory)] false), "tab".
  repeat split; try reflexivity.
  intros k [<-|[]]. reflexivity.
Qed.

(** Witness of X1: [table] starts with [tab]. *)
Lemma exists_iff_prefixed_key_witness :
  fst (exists_ unit Demo.base_url Demo.serve "tab"
         (Demo.disk [("table", Demo.directory)] false))
  = Ok true.
Proof.
  exact (proj2
           (exists_iff_prefixed_key unit Demo.base_url Demo.serve "tab"
              (Demo.disk [("table", Demo.directory)] false) eq_refl)
           (ex_intro _ "table" (conj (or_introl eq_refl) eq_refl))).
Defined.

(** Witness of X2: nothing fetched, nothing known. *)
Lemma exists_on_empty_index_witness :
  fst (exists_ unit Demo.base_url Demo.serve "x" (Demo.disk [] false)) = Ok false.
Proof.
  exact (exists_on_empty_index unit Demo.base_url Demo.serve "x" (Demo.disk [] false)
           eq_refl).
Defined.

(** Witness of X3: the root of the disk that knows [t]. *)
Lemma exists_root_witness :
  fst (exists_ unit Demo.base_url Demo.serve "" (Demo.disk Demo.fetched_t false)) = Ok true.
Proof.
  apply (exists_root unit Demo.base_url Demo.serve (Demo.disk Demo.fetched_t false)).
  simpl. discriminate.
Defined.


(** Witness of X5: the cold lookup of [t/a.bin] asks for [t]. *)
Lemma exists_seeds_directory_witness :
  requests (snd (exists_ unit Demo.base_url Demo.serve "t/a.bin" (Demo.disk [] false)))
  = ["https://h/r/t"].
Proof.
  exact (exists_seeds_directory unit Demo.base_url Demo.serve "t/a.bin"
           (Demo.disk [] false) eq_refl eq_refl).
Defined.

(** Witness of X6: the size of [t/a.bin]. *)
Lemma getFileSize_of_key_witness :
  fst (getFileSize unit Demo.base_url Demo.serve true "t/a.bin"
         (Demo.disk Demo.fetched_t false))
  = Ok 100%N.
Proof.
  exact (getFileSize_of_key unit Demo.base_url Demo.serve true "t/a.bin" (Demo.file 100)
           (Demo.disk Demo.fetched_t false) serve_contract eq_refl eq_refl).
Defined.

(** Witness of X7: in the Index of [t], the key before the lower bound of
    [t/a.bin] is [t]. *)
Lemma predecessor_never_matches_witness :
  starts_with (first_at Demo.fetched_t (prev (lower_bound Demo.fetched_t "t/a.bin"))) "t/a.bin"
  = false.
Proof.
  apply (predecessor_never_matches Demo.fetched_t "t/a.bin"). simpl. discriminate.
Defined.

(** Witness of X8: under a live query context the failed fetch for [x] is
    passed on; without one, [x] is reported missing. *)
Lemma assertExists_missing_witness :
  assertExists unit Demo.base_url Demo.serve true "x" (Demo.disk [] true)
  = (Throw (Exception NETWORK_ERROR "Cannot load disk metadata. Error: 404"),
     fetched unit Demo.serve "https://h/r/x" (Demo.disk [] true))
  /\ exists message,
       fst (assertExists unit Demo.base_url Demo.serve true "x" (Demo.disk [] false))
       = Throw (Exception FILE_DOESNT_EXIST message)
       /\ message = "There is no path x".
Proof.
  split.
  - exact (proj1 (assertExists_missing unit Demo.base_url Demo.serve true "x"
                    (Demo.disk [] true))
             _ _ eq_refl).
  - destruct (proj2 (assertExists_missing unit Demo.base_url Demo.serve true "x"
                       (Demo.disk [] false))
                _ _ eq_refl eq_refl) as (message & Hthrow & Hmessage).
    exists message. split; [now rewrite Hthrow|exact (Hmessage eq_refl)].
Defined.

(** Witness of X9: [store] exists through [store/a.bin] and is no key. *)
Lemma lookup_of_synthetic_ancestor_witness :
  fst (isFile unit Demo.base_url Demo.serve true "store"
         (Demo.disk [("store/a.bin", Demo.file 100)] false))
  = Throw out_of_range
  /\ fst (getFileSize unit Demo.base_url Demo.serve true "store"
            (Demo.disk [("store/a.bin", Demo.file 100)] false))
     = Throw out_of_range.
Proof.
  destruct (lookup_of_synthetic_ancestor unit Demo.base_url Demo.serve true "store"
              (Demo.disk [("store/a.bin", Demo.file 100)] false) _ eq_refl eq_refl)
    as (Hfile & _ & Hsize).
  split; [now rewrite Hfile|now rewrite Hsize].
Defined.

(** Witness of X11: the cold lookup of [t/a.bin] leaves an ordered Index. *)
Lemma view_operations_keep_index_witness :
  ascending (files (snd (exists_ unit Demo.base_url Demo.serve "t/a.bin" (Demo.disk [] false))))
  = true.
Proof.
  exact (proj1 (proj1 (proj2 (view_operations_keep_index unit Demo.base_url Demo.serve
                                 Demo.escape true "t/a.bin" (Demo.disk [] false)
                                 serve_contract))
                  eq_refl)).
Defined.

(** Witness of X12: the listing of the whole disk. *)
Lemma listDirectory_ascending_witness :
  exists l,
    listDirectory unit "" (Demo.disk Demo.fetched_t false) = (Ok l, Demo.disk Demo.fetched_t false)
    /\ paths_ascending l /\ NoDup l.
Proof.
  exact (listDirectory_ascending unit "" (Demo.disk Demo.fetched_t false) eq_refl).
Defined.


(** Witness of X15: the object of [t/a.bin] has the size of the file. *)
Lemma object_size_is_file_size_witness :
  exists key n,
    [{| remote_path := "/t/a.bin"; bytes_size := 100; is_remote := true |}]
    = [{| remote_path := key; bytes_size := n; is_remote := true |}]
    /\ getFileSize unit Demo.base_url Demo.serve true "t/a.bin" (Demo.disk Demo.fetched_t false)
       = (Ok n, Demo.disk Demo.fetched_t false).
Proof.
  exact (object_size_is_file_size unit Demo.base_url Demo.serve Demo.escape true "t/a.bin"
           (Demo.disk Demo.fetched_t false) _ _ eq_refl).
Defined.

(** Witness of X16: [t/a.bin] and its directory [t] are cached. *)
Lemma cached_lookups_are_pure_witness :
  exists_ unit Demo.base_url Demo.serve "t/a.bin" (Demo.disk Demo.fetched_t true)
  = (Ok true, Demo.disk Demo.fetched_t true)
  /\ snd (getStorageObjects unit Demo.base_url Demo.serve Demo.escape true "t/a.bin"
            (Demo.disk Demo.fetched_t true))
     = Demo.disk Demo.fetched_t true.
Proof.
  destruct (cached_lookups_are_pure unit Demo.base_url Demo.serve Demo.escape true "t/a.bin"
              (Demo.disk Demo.fetched_t true) eq_refl eq_refl)
    as (Hexists & _ & _ & _ & _ & Hobjects).
  split; [exact Hexists|exact Hobjects].
Defined.

(** Witness of X17: the listing of [t/a] inside the listing of [t]. *)
Lemma listDirectory_narrows_witness :
  exists lp lq,
    listDirectory unit "t" (Demo.disk Demo.fetched_t false)
    = (Ok lp, Demo.disk Demo.fetched_t false)
    /\ listDirectory unit "t/a" (Demo.disk Demo.fetched_t false)
       = (Ok lq, Demo.disk Demo.fetched_t false)
    /\ lq = filter (fun k => starts_with k "t/a") lp
    /\ forall k, In k lq -> In k lp.
Proof.
  exact (listDirectory_narrows unit "t" "t/a" (Demo.disk Demo.fetched_t false) eq_refl).
Defined.

(** Witness of X18: [t] is listed, so it exists. *)
Lemma exists_iff_listed_witness :
  fst (exists_ unit Demo.base_url Demo.serve "t" (Demo.disk Demo.fetched_t false)) = Ok true.
Proof.
  apply (proj2 (exists_iff_listed unit Demo.base_url Demo.serve "t"
                  (Demo.disk Demo.fetched_t false) eq_refl)).
  simpl. discriminate.
Defined.

(** Witness of X19: [t/a.bin] exists, so does [t/]. *)
Lemma exists_prefix_closed_witness :
  fst (exists_ unit Demo.base_url Demo.serve "t/"
         (snd (exists_ unit Demo.base_url Demo.serve "t/a.bin" (Demo.disk [] false))))
  = Ok true.
Proof.
  exact (exists_prefix_closed unit Demo.base_url Demo.serve "t/a.bin" "t/"
           (Demo.disk [] false) serve_contract eq_refl eq_refl eq_refl).
Defined.

(** Witness of X20: three requests for the same listing. *)
Lemma iterateDirectory_repeats_request_witness :
  requests (snd (iterateDirectory unit Demo.base_url Demo.vacant true "x" (Demo.disk [] false)))
  = ["https://h/r/x"; "https://h/r/x"; "https://h/r/x"].
Proof.
  exact (iterateDirectory_repeats_request unit Demo.base_url Demo.vacant true "x"
           (Demo.disk [] false) eq_refl eq_refl eq_refl).
Defined.

(** Witness of X21: the one path under [t] exists. *)
Lemma listed_paths_exist_witness :
  fst (exists_ unit Demo.base_url Demo.serve "t/a.bin" (Demo.disk Demo.fetched_t false))
  = Ok true.
Proof.
  apply (proj1 (listed_paths_exist unit Demo.base_url Demo.serve true "t"
                  (Demo.disk Demo.fetched_t false) serve_contract eq_refl)
           ["t"; "t/a.bin"] (Demo.disk Demo.fetched_t false) eq_refl).
  simpl. right. left. reflexivity.
Defined.

(** Witness of X22: the directory [t] is a key. *)
Lemma iterateDirectory_of_key_witness :
  exists l s',
    iterateDirectory unit Demo.base_url Demo.serve true "t" (Demo.disk Demo.fetched_t true)
    = (Ok l, s')
    /\ l = filter (in_directory "t") (keys (files s'))
    /\ extends Demo.fetched_t (files s').
Proof.
  exact (iterateDirectory_of_key unit Demo.base_url Demo.serve true "t"
           (Demo.disk Demo.fetched_t true) serve_contract eq_refl eq_refl).
Defined.
